(** * Eloquent chat front end: stream parsing, anonymous quota, chat and
      session hooks

    A shallow embedding of the TypeScript modules of the front end

    - [@/lib/api]                      ([ApiClient]: the auth endpoints and
                                        the generator [streamMessage]),
    - [@/contexts/AuthContext]         ([AuthProvider]),
    - [@/hooks/useChat]                ([useChat]),
    - [@/hooks/useChatSessions]        ([useChatSessions]),
    - [@/components/chat/ChatMessage]  ([ChatMessage]),
    - the chat page                    ([ChatPage]),

    with the properties the specification states about them.

    Conventions.  A JavaScript string is the list of its UTF-16 code units.
    JavaScript objects used as dictionaries ([localStorage], the [sources]
    state of [useChat]) are finite maps.  React state is threaded
    explicitly: a function that calls [setState] returns the next state.
    A promise that may reject is a value of a sum type; an [async]
    function takes the outcome of the request it awaits as an argument.
    The clock ([new Date()]) is an argument as well. *)

From Stdlib Require Import ZArith NArith String Ascii DecimalN.
From stdpp Require Import base option list gmap.

Local Open Scope list_scope.

(** ** JavaScript strings *)

(** A string is its sequence of UTF-16 code units. *)
Abbreviation jsstring := (list N).

(** A literal: every character of [s] as one code unit. *)
Fixpoint js (s : string) : jsstring :=
  match s with
  | EmptyString => []
  | String c s' => N_of_ascii c :: js s'
  end.

(** A literal in which an apostrophe stands for the quotation mark
    (code unit 34); used to write JSON texts. *)
Definition jsq (s : string) : jsstring :=
  map (fun c => if N.eqb c 39 then 34%N else c) (js s).

Fixpoint str_eqb (a b : jsstring) : bool :=
  match a, b with
  | [], [] => true
  | x :: a', y :: b' => N.eqb x y && str_eqb a' b'
  | _, _ => false
  end.

(** [s.startsWith(p)] *)
Fixpoint startsWith (s p : jsstring) : bool :=
  match p, s with
  | [], _ => true
  | y :: p', x :: s' => N.eqb x y && startsWith s' p'
  | _ :: _, [] => false
  end.

(** [s.slice(n)] for [0 <= n] *)
Definition slice (s : jsstring) (n : nat) : jsstring := drop n s.

(** WhiteSpace and LineTerminator code points of ECMAScript, the ones
    [String.prototype.trim] strips. *)
Definition is_js_whitespace (c : N) : bool :=
  (N.eqb c 9 || N.eqb c 10 || N.eqb c 11 || N.eqb c 12 || N.eqb c 13 ||
   N.eqb c 32 || N.eqb c 160 || N.eqb c 5760 ||
   (N.leb 8192 c && N.leb c 8202) ||
   N.eqb c 8232 || N.eqb c 8233 || N.eqb c 8239 || N.eqb c 8287 ||
   N.eqb c 12288 || N.eqb c 65279)%N.

Fixpoint trimStart (s : jsstring) : jsstring :=
  match s with
  | [] => []
  | c :: s' => if is_js_whitespace c then trimStart s' else s
  end.

(** [s.trim()] *)
Definition trim (s : jsstring) : jsstring :=
  rev (trimStart (rev (trimStart s))).

(** [s.split(sep)] for a separator of one code unit: always at least one
    piece; [n] separators give [n + 1] pieces. *)
Fixpoint split (sep : N) (s : jsstring) : list jsstring :=
  match s with
  | [] => [[]]
  | c :: s' =>
      if N.eqb c sep then [] :: split sep s'
      else match split sep s' with
           | l :: ls => (c :: l) :: ls
           | [] => [[c]]
           end
  end.

Definition LF : N := 10.

(** ** Numbers of the message counter *)

(** The values [anonymousMessageCount] takes: an integer or [NaN] (what
    [parseInt] gives for a text without digits).  A JavaScript number is
    a double: [Int z] is the number [z] for the safe integers, up to
    [MAX_SAFE_INTEGER] on either side of 0, where [+ 1], [toString] and
    [parseInt] are exact.  Beyond them a double rounds ([2^53 + 1] is
    [2^53]) and prints in another form (with an exponent from [1e21] on);
    what depends on [add1] or [toString] is stated for safe integers. *)
Inductive number := Int (z : Z) | NaN.

(** [Number.MAX_SAFE_INTEGER] *)
Definition MAX_SAFE_INTEGER : Z := 2 ^ 53 - 1.

Definition is_digit (c : N) : bool := (N.leb 48 c && N.leb c 57)%N.

(** A run of decimal digits: their value appended to [acc], how many there
    were, the rest. *)
Fixpoint digits (acc : N) (s : jsstring) : N * nat * jsstring :=
  match s with
  | c :: s' =>
      if is_digit c then
        let '(v, n, rest) := digits (acc * 10 + (c - 48))%N s' in (v, S n, rest)
      else (acc, 0, s)
  | [] => (acc, 0, [])
  end.

(** [parseInt(s, 10)] *)
Definition parseInt (s : jsstring) : number :=
  let '(neg, s1) :=
    match trimStart s with
    | c :: s' => if N.eqb c 45 then (true, s')
                 else if N.eqb c 43 then (false, s')
                 else (false, c :: s')
    | [] => (false, [])
    end in
  let '(v, n, _) := digits 0 s1 in
  match n with
  | O => NaN
  | _ => Int (if neg then - Z.of_N v else Z.of_N v)
  end.

Fixpoint digits_of_uint (u : Decimal.uint) : jsstring :=
  match u with
  | Decimal.Nil => []
  | Decimal.D0 u' => 48%N :: digits_of_uint u'
  | Decimal.D1 u' => 49%N :: digits_of_uint u'
  | Decimal.D2 u' => 50%N :: digits_of_uint u'
  | Decimal.D3 u' => 51%N :: digits_of_uint u'
  | Decimal.D4 u' => 52%N :: digits_of_uint u'
  | Decimal.D5 u' => 53%N :: digits_of_uint u'
  | Decimal.D6 u' => 54%N :: digits_of_uint u'
  | Decimal.D7 u' => 55%N :: digits_of_uint u'
  | Decimal.D8 u' => 56%N :: digits_of_uint u'
  | Decimal.D9 u' => 57%N :: digits_of_uint u'
  end.

(** The decimal numeral of a natural number. *)
Definition decimal (n : N) : jsstring := digits_of_uint (N.to_uint n).

(** [n.toString()], on the safe integers: the decimal numeral. *)
Definition toString (n : number) : jsstring :=
  match n with
  | Int z => if (z <? 0)%Z then 45%N :: decimal (Z.abs_N z)
             else decimal (Z.abs_N z)
  | NaN => js "NaN"
  end.

(** [n + 1], on the safe integers below [MAX_SAFE_INTEGER]. *)
Definition add1 (n : number) : number :=
  match n with
  | Int z => Int (z + 1)
  | NaN => NaN
  end.

(** [n < k] and [n > k]; a comparison with [NaN] is false. *)
Definition number_ltb (n : number) (k : Z) : bool :=
  match n with Int z => (z <? k)%Z | NaN => false end.

Definition number_gtb (n : number) (k : Z) : bool :=
  match n with Int z => (k <? z)%Z | NaN => false end.

(** ** [localStorage] *)

Abbreviation Storage := (gmap (list N) (list N)).

Definition getItem (key : jsstring) (ls : Storage) : option jsstring :=
  ls !! key.

Definition setItem (key value : jsstring) (ls : Storage) : Storage :=
  <[key := value]> ls.

Definition removeItem (key : jsstring) (ls : Storage) : Storage :=
  delete key ls.

(** Truthiness of what [getItem] returns: neither [null] nor empty. *)
Definition present (o : option jsstring) : bool :=
  match o with
  | Some (_ :: _) => true
  | _ => false
  end.

(** [o || d] on what [getItem] returns *)
Definition or_else (o : option jsstring) (d : jsstring) : jsstring :=
  match o with
  | Some (c :: s) => c :: s
  | _ => d
  end.

(** ** JavaScript values, as far as JSON produces them *)

(** A number is kept as the decimal literal it was read from:
    [JNumber neg m e] is the double nearest to [(-1)^neg * m * 10^e]. *)
#[warnings="-register-all"]
Inductive JsValue : Type :=
| JUndefined
| JNull
| JBool (b : bool)
| JNumber (neg : bool) (m : N) (e : Z)
| JString (s : jsstring)
| JArray (items : list JsValue)
| JObject (fields : list (jsstring * JsValue)).

(** The decimal [m * 10^e] rounds to the double [0]: at or below half the
    least subnormal, [2^-1075]. *)
Definition rounds_to_zero (m : N) (e : Z) : bool :=
  (N.eqb m 0 ||
   (Z.ltb e 0 && Z.leb (Z.of_N m * 2 ^ 1075) (10 ^ (- e))))%Z.

(** ToBoolean *)
Definition truthy (v : JsValue) : bool :=
  match v with
  | JUndefined | JNull => false
  | JBool b => b
  | JNumber _ m e => negb (rounds_to_zero m e)
  | JString s => match s with [] => false | _ => true end
  | JArray _ | JObject _ => true
  end.

(** [o[k]] on the object a JSON text denotes: the last of several equal
    keys is the one kept. *)
Definition field (k : jsstring) (fs : list (jsstring * JsValue)) : JsValue :=
  fold_left (fun acc kv => if str_eqb (fst kv) k then snd kv else acc)
            fs JUndefined.

(** [v.k] for a name [k] that is no array index and not [length]; such a
    property exists on objects only.  [None] is the [TypeError] of reading
    a property of [null] or [undefined]. *)
Definition get_prop (v : JsValue) (k : jsstring) : option JsValue :=
  match v with
  | JUndefined | JNull => None
  | JObject fs => Some (field k fs)
  | _ => Some JUndefined
  end.

(** [v === 'k'] *)
Definition is_string (v : JsValue) (k : jsstring) : bool :=
  match v with
  | JString s => str_eqb s k
  | _ => false
  end.

(** ** The interfaces of [@/types] *)

Inductive Role := user | assistant | system.

(** [sources?: Source[] | string[]]: a full source is an object, a legacy
    source is the string of its id. *)
Module Message.
Record t := mk {
  role : Role;
  content : jsstring;
  timestamp : jsstring;
  sources : option (list JsValue);
}.
End Message.
Abbreviation Message := Message.t.

Module ChatSession.
Record t := mk {
  session_id : jsstring;
  user_id : option jsstring;
  title : option jsstring;
  created_at : jsstring;
  updated_at : jsstring;
  message_count : N;
}.
End ChatSession.
Abbreviation ChatSession := ChatSession.t.

Module User.
Record t := mk {
  user_id : jsstring;
  email : jsstring;
  created_at : jsstring;
}.
End User.
Abbreviation User := User.t.

Module AuthResponse.
Record t := mk {
  access_token : jsstring;
  token_type : jsstring;
  user : User;
}.
End AuthResponse.
Abbreviation AuthResponse := AuthResponse.t.

Module RegisterRequest.
Record t := mk {
  email : jsstring;
  password : jsstring;
  anonymous_session_id : option jsstring;
}.
End RegisterRequest.
Abbreviation RegisterRequest := RegisterRequest.t.

Module LoginRequest.
Record t := mk {
  email : jsstring;
  password : jsstring;
}.
End LoginRequest.
Abbreviation LoginRequest := LoginRequest.t.

Module AuthState.
Record t := mk {
  user : option User;
  isAuthenticated : bool;
  isAnonymous : bool;
  anonymousMessageCount : number;
  loading : bool;
}.
End AuthState.
Abbreviation AuthState := AuthState.t.

(** ** [ApiClient] ([@/lib/api]) *)

Module Api.

(** *** The auth endpoints *)

(** What is posted, and where: [/auth/login], [/auth/register],
    [/auth/promote-anonymous]. *)
Inductive request :=
| PostLogin (data : LoginRequest)
| PostRegister (data : RegisterRequest)
| PostPromoteAnonymous (email password anonymous_session_id : jsstring).

(** The backend: the response to a request, or [None] when the request
    fails and the promise rejects. *)
Definition backend := request -> option AuthResponse.

Definition ACCESS_TOKEN_KEY : jsstring := js "access_token".

(** One call of an auth endpoint: the request posted, and the response
    with the storage after [setToken], or [None] when the promise
    rejects. *)
Record call := Call {
  posted : request;
  outcome : option (AuthResponse * Storage);
}.

(** [await this.client.post(...); this.setToken(response.data.access_token);
    return response.data] *)
Definition post_auth (server : backend) (req : request) (ls : Storage)
  : call :=
  Call req
    match server req with
    | Some response =>
        Some (response,
              setItem ACCESS_TOKEN_KEY (AuthResponse.access_token response) ls)
    | None => None
    end.

Definition login (server : backend) (data : LoginRequest) :=
  post_auth server (PostLogin data).

Definition register (server : backend) (data : RegisterRequest) :=
  post_auth server (PostRegister data).

Definition promoteAnonymous (server : backend)
    (email password sessionId : jsstring) :=
  post_auth server (PostPromoteAnonymous email password sessionId).

Definition logout (ls : Storage) : Storage := removeItem ACCESS_TOKEN_KEY ls.

(** *** [streamMessage] *)

Inductive event_type := content | metadata.

(** What the generator yields: [{ type, data }]. *)
Record event := Event { type : event_type; data : JsValue }.

(** How a [fetch] response body ends after its chunks: the reader reports
    [done], or a [read()] rejects. *)
Inductive body_end := EndOfBody | ReadRejects.

(** The response of [fetch].  A chunk is the text [decoder.decode(value,
    { stream: true })] returns for one [read()]. *)
Record Response := {
  ok : bool;
  status : N;
  body : option (list jsstring * body_end);
}.

(** [await fetch(...)]: a response, or a rejection (no connection). *)
Inductive fetched := Rejected | Resolved (response : Response).

Inductive error :=
| FetchFailed                   (* a rejected [fetch] *)
| HttpError (status : N)        (* [HTTP error! status: ...] *)
| NoResponseBody                (* [No response body] *)
| ReadFailed.                   (* a rejected [reader.read()] *)

(** How the generator finishes: by [return] (at the marker or at the end
    of the body), or by throwing. *)
Inductive completion := Returned | Threw (err : error).

(** One run of the generator, driven to its end: the events in the order
    they were yielded, the number of [reader.read()] calls, the way it
    finished. *)
Record run := Run {
  events : list event;
  reads : nat;
  finish : completion;
}.

(** The effect of one line of a chunk. *)
Inductive line_step := Skip | Yield (ev : event) | Stop.

Section StreamMessage.

(** [JSON.parse]; [None] is its [SyntaxError]. *)
Variable JSON_parse : jsstring -> option JsValue.

(** The body of the inner [try]: the three-way test on the parsed
    value.  Reading [parsed.type] of [null] throws, and the [catch]
    skips the line. *)
Definition classify (parsed : JsValue) : line_step :=
  match get_prop parsed (js "type"), get_prop parsed (js "data"),
        get_prop parsed (js "session_id") with
  | Some ty, Some d, Some sid =>
      if is_string ty (js "content") && truthy d then
        Yield (Event content d)
      else if is_string ty (js "sources") && truthy d then
        Yield (Event metadata (JObject [(js "sources", d)]))
      else if is_string ty (js "metadata") || truthy sid then
        Yield (Event metadata parsed)
      else Skip
  | _, _, _ => Skip
  end.

(** The body of [for (const line of lines)]. *)
Definition on_line (line : jsstring) : line_step :=
  if truthy (JString (trim line)) && startsWith line (js "data: ") then
    let dataStr := trim (slice line 6) in
    if str_eqb dataStr (js "[DONE]") then Stop
    else match JSON_parse dataStr with
         | Some parsed => classify parsed
         | None => Skip
         end
  else Skip.

(** [for (const line of lines) { ... }]: the events yielded, and whether
    the loop was left by [return]. *)
Fixpoint for_lines (lines : list jsstring) : list event * bool :=
  match lines with
  | [] => ([], false)
  | line :: rest =>
      match on_line line with
      | Stop => ([], true)
      | Skip => for_lines rest
      | Yield ev => let '(evs, stopped) := for_lines rest in
                    (ev :: evs, stopped)
      end
  end.

(** [while (true) { const { done, value } = await reader.read(); ... }] *)
Fixpoint read_loop (chunks : list jsstring) (e : body_end) : run :=
  match chunks with
  | [] => match e with
          | EndOfBody => Run [] 1 Returned
          | ReadRejects => Run [] 1 (Threw ReadFailed)
          end
  | chunk :: rest =>
      let '(evs, stopped) := for_lines (split LF chunk) in
      if stopped then Run evs 1 Returned
      else let r := read_loop rest e in
           Run (evs ++ events r) (S (reads r)) (finish r)
  end.

Definition streamMessage (f : fetched) : run :=
  match f with
  | Rejected => Run [] 0 (Threw FetchFailed)
  | Resolved response =>
      if negb (ok response) then
        Run [] 0 (Threw (HttpError (status response)))
      else match body response with
           | None => Run [] 0 (Threw NoResponseBody)
           | Some (chunks, e) => read_loop chunks e
           end
  end.

(** *** Notions the properties are stated with *)

(** The lines the inner loop sees, chunk after chunk. *)
Definition lines_of (chunks : list jsstring) : list jsstring :=
  concat (map (split LF) chunks).

(** The generator on the level of lines: the events of the lines up to
    the first marker, and the completion. *)
Definition stream_lines (lines : list jsstring) (e : body_end)
  : list event * completion :=
  let '(evs, stopped) := for_lines lines in
  (evs, if stopped then Returned
        else match e with
             | EndOfBody => Returned
             | ReadRejects => Threw ReadFailed
             end).

(** The server-sent-events framing: [data: <payload>] and a blank
    line. *)
Definition sse_frame (payload : jsstring) : jsstring :=
  js "data: " ++ payload ++ [LF; LF].

(** Every chunk but the last is empty or ends with a line feed: no line
    of the stream is cut by a chunk boundary. *)
Fixpoint line_aligned (chunks : list jsstring) : Prop :=
  match chunks with
  | [] => True
  | [_] => True
  | c :: rest => (c = [] \/ exists a, c = a ++ [LF]) /\ line_aligned rest
  end.

(** The event of a frame, in the words of the interface description:
    [{type: content, data}] is relayed as a content event with that data,
    [{type: sources, data}] as a metadata event carrying [{sources: data}]
    — when the frame has data, that is, data that is not empty —, and
    [{type: metadata, ...}] as a metadata event carrying the frame.  So
    is any other frame that carries a session id: a frame of another
    type, or a content or sources frame without data. *)
Inductive frame_event : JsValue -> event -> Prop :=
| fe_content fs :
    is_string (field (js "type") fs) (js "content") = true ->
    truthy (field (js "data") fs) = true ->
    frame_event (JObject fs) (Event content (field (js "data") fs))
| fe_sources fs :
    is_string (field (js "type") fs) (js "sources") = true ->
    truthy (field (js "data") fs) = true ->
    frame_event (JObject fs)
      (Event metadata (JObject [(js "sources", field (js "data") fs)]))
| fe_metadata fs :
    is_string (field (js "type") fs) (js "metadata") = true ->
    frame_event (JObject fs) (Event metadata (JObject fs))
| fe_session fs :
    truthy (field (js "session_id") fs) = true ->
    truthy (field (js "data") fs) = false \/
    (is_string (field (js "type") fs) (js "content") = false /\
     is_string (field (js "type") fs) (js "sources") = false) ->
    frame_event (JObject fs) (Event metadata (JObject fs)).

(** What is to be yielded for a frame: its event, or nothing when it has
    none (a content frame without data and without a session id, say). *)
Definition frame_output (parsed : JsValue) (out : option event) : Prop :=
  match out with
  | Some ev => frame_event parsed ev
  | None => forall ev, ~ frame_event parsed ev
  end.

(** A payload the backend sends before the marker: one line of JSON for
    a frame that has an event. *)
Definition well_formed_frame (payload : jsstring) (ev : event) : Prop :=
  (LF ∉ payload) /\
  trim payload <> js "[DONE]" /\
  exists parsed, JSON_parse (trim payload) = Some parsed /\
                 frame_event parsed ev.

(** A payload the backend sends before the marker, one line of JSON, with
    what is to be yielded for it. *)
Definition sent_frame (payload : jsstring) (out : option event) : Prop :=
  (LF ∉ payload) /\
  trim payload <> js "[DONE]" /\
  exists parsed, JSON_parse (trim payload) = Some parsed /\
                 frame_output parsed out.


End StreamMessage.

End Api.

(** ** [JSON.parse]

    The JSON grammar of ECMA-404, as [JSON.parse] reads it, written as a
    recursive-descent parser.  The theorems about [streamMessage] hold for
    every parser; this one evaluates the examples. *)

Module JSON.

Definition is_ws (c : N) : bool :=
  (N.eqb c 32 || N.eqb c 9 || N.eqb c 10 || N.eqb c 13)%N.

Fixpoint skip_ws (s : jsstring) : jsstring :=
  match s with
  | [] => []
  | c :: s' => if is_ws c then skip_ws s' else s
  end.

Definition hex_digit (c : N) : option N :=
  if is_digit c then Some (c - 48)%N
  else if (N.leb 65 c && N.leb c 70)%N then Some (c - 55)%N
  else if (N.leb 97 c && N.leb c 102)%N then Some (c - 87)%N
  else None.

(** The characters of a string after its opening quote, up to the closing
    one, with the escapes resolved. *)
Fixpoint string_body (s : jsstring) : option (jsstring * jsstring) :=
  let cons_to c r :=
    match r with Some (t, rest) => Some (c :: t, rest) | None => None end in
  match s with
  | [] => None
  | c :: s' =>
      if N.eqb c 34 then Some ([], s')
      else if N.eqb c 92 then
        match s' with
        | [] => None
        | e :: s'' =>
            if N.eqb e 34 then cons_to 34%N (string_body s'')
            else if N.eqb e 92 then cons_to 92%N (string_body s'')
            else if N.eqb e 47 then cons_to 47%N (string_body s'')
            else if N.eqb e 98 then cons_to 8%N (string_body s'')
            else if N.eqb e 102 then cons_to 12%N (string_body s'')
            else if N.eqb e 110 then cons_to 10%N (string_body s'')
            else if N.eqb e 114 then cons_to 13%N (string_body s'')
            else if N.eqb e 116 then cons_to 9%N (string_body s'')
            else if N.eqb e 117 then
              match s'' with
              | h1 :: h2 :: h3 :: h4 :: s4 =>
                  match hex_digit h1, hex_digit h2, hex_digit h3, hex_digit h4 with
                  | Some a, Some b, Some c', Some d =>
                      cons_to (((a * 16 + b) * 16 + c') * 16 + d)%N
                              (string_body s4)
                  | _, _, _, _ => None
                  end
              | _ => None
              end
            else None
        end
      else if N.ltb c 32 then None
      else cons_to c (string_body s')
  end.

(** [-? int frac? exp?] *)
Definition number (s : jsstring) : option (JsValue * jsstring) :=
  let '(neg, s1) :=
    match s with
    | c :: s' => if N.eqb c 45 then (true, s') else (false, s)
    | [] => (false, s)
    end in
  let int_part :=
    match s1 with
    | c :: s' =>
        if N.eqb c 48 then Some (0%N, s')
        else if is_digit c then
          let '(v, _, rest) := digits 0 s1 in Some (v, rest)
        else None
    | [] => None
    end in
  match int_part with
  | None => None
  | Some (i, s2) =>
      let frac :=
        match s2 with
        | c :: s' =>
            if N.eqb c 46 then
              let '(v, n, rest) := digits i s' in
              match n with O => None | _ => Some (v, n, rest) end
            else Some (i, 0, s2)
        | [] => Some (i, 0, s2)
        end in
      match frac with
      | None => None
      | Some (m, nfrac, s3) =>
          let no_exp := Some (JNumber neg m (- Z.of_nat nfrac), s3) in
          match s3 with
          | c :: s' =>
              if (N.eqb c 101 || N.eqb c 69)%N then
                let '(eneg, s4) :=
                  match s' with
                  | d :: s'' =>
                      if N.eqb d 45 then (true, s'')
                      else if N.eqb d 43 then (false, s'')
                      else (false, s')
                  | [] => (false, s')
                  end in
                let '(ev, n, rest) := digits 0 s4 in
                match n with
                | O => None
                | _ =>
                    let ez := if eneg then (- Z.of_N ev)%Z else Z.of_N ev in
                    Some (JNumber neg m (ez - Z.of_nat nfrac), rest)
                end
              else no_exp
          | [] => no_exp
          end
      end
  end.

(** A value, the elements of an array after [[] or [,], the members of an
    object after [{] or [,].  Every call spends one unit of [fuel]. *)
Fixpoint value (fuel : nat) (s : jsstring) : option (JsValue * jsstring) :=
  match fuel with
  | O => None
  | S fuel' =>
      let s := skip_ws s in
      if startsWith s (js "null") then Some (JNull, drop 4 s)
      else if startsWith s (js "true") then Some (JBool true, drop 4 s)
      else if startsWith s (js "false") then Some (JBool false, drop 5 s)
      else match s with
           | [] => None
           | c :: s' =>
               if N.eqb c 34 then
                 match string_body s' with
                 | Some (t, rest) => Some (JString t, rest)
                 | None => None
                 end
               else if N.eqb c 91 then
                 match skip_ws s' with
                 | d :: rest =>
                     if N.eqb d 93 then Some (JArray [], rest)
                     else match elements fuel' s' with
                          | Some (vs, rest') => Some (JArray vs, rest')
                          | None => None
                          end
                 | [] => None
                 end
               else if N.eqb c 123 then
                 match skip_ws s' with
                 | d :: rest =>
                     if N.eqb d 125 then Some (JObject [], rest)
                     else match members fuel' s' with
                          | Some (fs, rest') => Some (JObject fs, rest')
                          | None => None
                          end
                 | [] => None
                 end
               else number s
           end
  end
with elements (fuel : nat) (s : jsstring) : option (list JsValue * jsstring) :=
  match fuel with
  | O => None
  | S fuel' =>
      match value fuel' s with
      | Some (v, rest) =>
          match skip_ws rest with
          | c :: rest' =>
              if N.eqb c 44 then
                match elements fuel' rest' with
                | Some (vs, rest'') => Some (v :: vs, rest'')
                | None => None
                end
              else if N.eqb c 93 then Some ([v], rest')
              else None
          | [] => None
          end
      | None => None
      end
  end
with members (fuel : nat) (s : jsstring)
  : option (list (jsstring * JsValue) * jsstring) :=
  match fuel with
  | O => None
  | S fuel' =>
      match skip_ws s with
      | q :: s' =>
          if N.eqb q 34 then
            match string_body s' with
            | Some (k, rest) =>
                match skip_ws rest with
                | c :: rest' =>
                    if N.eqb c 58 then
                      match value fuel' rest' with
                      | Some (v, rest'') =>
                          match skip_ws rest'' with
                          | d :: rest3 =>
                              if N.eqb d 44 then
                                match members fuel' rest3 with
                                | Some (fs, rest4) => Some ((k, v) :: fs, rest4)
                                | None => None
                                end
                              else if N.eqb d 125 then Some ([(k, v)], rest3)
                              else None
                          | [] => None
                          end
                      | None => None
                      end
                    else None
                | [] => None
                end
            | None => None
            end
          else None
      | [] => None
      end
  end.

(** [JSON.parse(text)]: one value, white space around it, nothing else.
    Two units of fuel for every code unit are enough for every text. *)
Definition parse (text : jsstring) : option JsValue :=
  match value (2 * length text + 2) text with
  | Some (v, rest) => match skip_ws rest with [] => Some v | _ => None end
  | None => None
  end.

End JSON.


(** ** [AuthProvider] ([@/contexts/AuthContext]) *)

Module Auth.

Definition ANONYMOUS_MESSAGE_LIMIT : Z := 3.
Definition MESSAGE_COUNT_KEY : jsstring := js "anonymous_message_count".
Definition SESSION_ID_KEY : jsstring := js "eloquent_session_id".

(** What the provider reads and writes: its React state and the browser's
    [localStorage]. *)
Record world := World {
  state : AuthState;
  localStorage : Storage;
}.

(** [useState<AuthState>({ ... })] *)
Definition initial_state : AuthState :=
  {| AuthState.user := None;
     AuthState.isAuthenticated := false;
     AuthState.isAnonymous := true;
     AuthState.anonymousMessageCount := Int 0;
     AuthState.loading := true |}.

(** [parseInt(localStorage.getItem(MESSAGE_COUNT_KEY) || '0', 10)] *)
Definition stored_count (ls : Storage) : number :=
  parseInt (or_else (getItem MESSAGE_COUNT_KEY ls) (js "0")).

(** The effect run once after mounting. *)
Definition on_mount (w : world) : world :=
  let prev := state w in
  let token := getItem Api.ACCESS_TOKEN_KEY (localStorage w) in
  if present token then
    World {| AuthState.user := AuthState.user prev;
             AuthState.isAuthenticated := true;
             AuthState.isAnonymous := false;
             AuthState.anonymousMessageCount :=
               AuthState.anonymousMessageCount prev;
             AuthState.loading := false |}
          (localStorage w)
  else
    World {| AuthState.user := AuthState.user prev;
             AuthState.isAuthenticated := AuthState.isAuthenticated prev;
             AuthState.isAnonymous := AuthState.isAnonymous prev;
             AuthState.anonymousMessageCount := stored_count (localStorage w);
             AuthState.loading := false |}
          (localStorage w).

(** The state both [login] and [register] set on success. *)
Definition signed_in (u : User) : AuthState :=
  {| AuthState.user := Some u;
     AuthState.isAuthenticated := true;
     AuthState.isAnonymous := false;
     AuthState.anonymousMessageCount := Int 0;
     AuthState.loading := false |}.

(** An [async] function of the provider, run to its end: the request it
    posted, whether its promise resolved, the state and storage it left. *)
Record settled := Settled {
  sent : Api.request;
  resolved : bool;
  after : world;
}.

Definition login (server : Api.backend) (data : LoginRequest) (w : world)
  : settled :=
  let call := Api.login server data (localStorage w) in
  match Api.outcome call with
  | Some (response, ls) =>
      Settled (Api.posted call) true
        (World (signed_in (AuthResponse.user response))
               (removeItem MESSAGE_COUNT_KEY ls))
  | None => Settled (Api.posted call) false w
  end.

Definition getAnonymousSessionId (w : world) : option jsstring :=
  getItem SESSION_ID_KEY (localStorage w).

Definition register (server : Api.backend) (data : RegisterRequest)
    (w : world) : settled :=
  let sessionId := getAnonymousSessionId w in
  let call :=
    if present sessionId &&
       number_gtb (AuthState.anonymousMessageCount (state w)) 0
    then
      Api.promoteAnonymous server (RegisterRequest.email data)
        (RegisterRequest.password data) (default [] sessionId)
        (localStorage w)
    else Api.register server data (localStorage w) in
  match Api.outcome call with
  | Some (response, ls) =>
      Settled (Api.posted call) true
        (World (signed_in (AuthResponse.user response))
               (removeItem SESSION_ID_KEY (removeItem MESSAGE_COUNT_KEY ls)))
  | None => Settled (Api.posted call) false w
  end.

Definition logout (w : world) : world :=
  let ls := Api.logout (localStorage w) in
  World {| AuthState.user := None;
           AuthState.isAuthenticated := false;
           AuthState.isAnonymous := true;
           AuthState.anonymousMessageCount := stored_count ls;
           AuthState.loading := false |}
        ls.

Definition incrementMessageCount (w : world) : world :=
  let prev := state w in
  if AuthState.isAnonymous prev then
    let newCount := add1 (AuthState.anonymousMessageCount prev) in
    World {| AuthState.user := AuthState.user prev;
             AuthState.isAuthenticated := AuthState.isAuthenticated prev;
             AuthState.isAnonymous := AuthState.isAnonymous prev;
             AuthState.anonymousMessageCount := newCount;
             AuthState.loading := AuthState.loading prev |}
          (setItem MESSAGE_COUNT_KEY (toString newCount) (localStorage w))
  else w.

Definition canSendMessage (s : AuthState) : bool :=
  if AuthState.isAuthenticated s then true
  else number_ltb (AuthState.anonymousMessageCount s) ANONYMOUS_MESSAGE_LIMIT.

(** What the user and the page can make the provider do. *)
Inductive action :=
| Mount
| Login (server : Api.backend) (data : LoginRequest)
| Register (server : Api.backend) (data : RegisterRequest)
| Logout
| IncrementMessageCount.

Definition step (w : world) (a : action) : world :=
  match a with
  | Mount => on_mount w
  | Login server data => after (login server data w)
  | Register server data => after (register server data w)
  | Logout => logout w
  | IncrementMessageCount => incrementMessageCount w
  end.

(** The states the provider can be in: isAnonymous is the negation of
    isAuthenticated in all of them. *)
Definition consistent (s : AuthState) : Prop :=
  AuthState.isAnonymous s = negb (AuthState.isAuthenticated s).

End Auth.

(** ** [ChatMessage] ([@/components/chat/ChatMessage]) *)

Module ChatMessage.

Inductive avatar := UserRound | BrainIcon.

(** The bubble: the content as plain text, or rendered as Markdown. *)
Inductive bubble := Plain (text : jsstring) | Markdown (text : jsstring).

(** What the component renders, as far as it depends on the props:
    [sourcesDisplay] is the [sources] prop of the [SourcesDisplay]
    element, when there is one. *)
Record element := Element {
  avatar_icon : avatar;
  message_bubble : bubble;
  pulse : bool;
  sourcesDisplay : option JsValue;
}.

Definition isUser (message : Message) : bool :=
  match Message.role message with
  | user => true
  | _ => false
  end.

(** [sources || []] *)
Definition sources_or_empty (sources : option JsValue) : JsValue :=
  match sources with
  | Some v => if truthy v then v else JArray []
  | None => JArray []
  end.

Definition ChatMessage (message : Message) (sources : option JsValue)
    (isStreaming : bool) : element :=
  Element
    (if isUser message then UserRound else BrainIcon)
    (if isUser message then Plain (Message.content message)
     else Markdown (Message.content message))
    isStreaming
    (if negb (isUser message) then Some (sources_or_empty sources) else None).

End ChatMessage.

(** ** [useChat] ([@/hooks/useChat]) *)

Module Chat.

Record State := mkState {
  messages : list Message;
  sources : gmap nat JsValue;
  streamingContent : jsstring;
  isStreaming : bool;
}.

Definition initial : State := mkState [] ∅ [] false.

(** What one [sendMessage] does, step by step.  [Next ev] is the loop
    [for await] taking the event [ev] from the generator.
    [AppendMessage m srcs] is [setMessages(prev => [...prev, m])], with
    [setSources] at the index of [m] when [srcs] is given. *)
Inductive effect :=
| AppendMessage (m : Message) (srcs : option JsValue)
| SetIsStreaming (b : bool)
| SetStreamingContent (text : jsstring)
| Next (ev : Api.event)
| InvalidateSessions
| OnSessionCreated (sessionId : JsValue)
| OnMessageSent.

Definition apply (st : State) (f : effect) : State :=
  match f with
  | AppendMessage m srcs =>
      let newMessages := messages st ++ [m] in
      mkState newMessages
        match srcs with
        | Some data_sources =>
            <[length newMessages - 1 := data_sources]> (sources st)
        | None => sources st
        end
        (streamingContent st) (isStreaming st)
  | SetIsStreaming b =>
      mkState (messages st) (sources st) (streamingContent st) b
  | SetStreamingContent text =>
      mkState (messages st) (sources st) text (isStreaming st)
  | Next _ | InvalidateSessions | OnSessionCreated _ | OnMessageSent => st
  end.

Definition run_effects (st : State) (fs : list effect) : State :=
  fold_left apply fs st.

(** The properties a value spreads into an object literal. *)
Definition own_properties (v : JsValue) : list (jsstring * JsValue) :=
  match v with
  | JObject fs => fs
  | JArray items => imap (fun i x => (decimal (N.of_nat i), x)) items
  | JString s => imap (fun i c => (decimal (N.of_nat i), JString [c])) s
  | _ => []
  end.

(** [v.length] *)
Definition length_of (v : JsValue) : JsValue :=
  match v with
  | JArray items => JNumber false (N.of_nat (length items)) 0
  | JString s => JNumber false (N.of_nat (length s)) 0
  | JObject fs => field (js "length") fs
  | _ => JUndefined
  end.

Section UseChat.

(** The coercions of the runtime where the hook applies them to a value
    that is not of the declared type: ToString of a value that is no
    string, and [v > 0] for a string, an array or an object. *)
Variable ToString : JsValue -> jsstring.
Variable ToNumber_positive : JsValue -> bool.

(** [fullResponse + chunk.data] *)
Definition concat_value (fullResponse : jsstring) (v : JsValue) : jsstring :=
  match v with
  | JString s => fullResponse ++ s
  | _ => fullResponse ++ ToString v
  end.

(** [v > 0] *)
Definition greater_than_zero (v : JsValue) : bool :=
  match v with
  | JUndefined | JNull => false
  | JBool b => b
  | JNumber neg m e => negb neg && negb (rounds_to_zero m e)
  | _ => ToNumber_positive v
  end.

(** [data.sources && data.sources.length > 0] *)
Definition has_sources (data_sources : JsValue) : bool :=
  truthy data_sources && greater_than_zero (length_of data_sources).

Definition initial_metadata : list (jsstring * JsValue) :=
  [(js "session_id", JString []); (js "sources", JArray [])].

(** The loop [for await (const chunk of apiClient.streamMessage(...))]
    over the events the generator yields: what it does, and the
    [fullResponse] and [metadata] it ends with. *)
Fixpoint consume (evs : list Api.event) (fullResponse : jsstring)
    (metadata : list (jsstring * JsValue))
  : list effect * jsstring * list (jsstring * JsValue) :=
  match evs with
  | [] => ([], fullResponse, metadata)
  | chunk :: rest =>
      match Api.type chunk with
      | Api.content =>
          let fullResponse' := concat_value fullResponse (Api.data chunk) in
          let '(fs, full, md) := consume rest fullResponse' metadata in
          (Next chunk :: SetStreamingContent fullResponse' :: fs, full, md)
      | Api.metadata =>
          let '(fs, full, md) :=
            consume rest fullResponse
                    (metadata ++ own_properties (Api.data chunk)) in
          (Next chunk :: fs, full, md)
      end
  end.

(** [a || b] *)
Definition or_value (a b : JsValue) : JsValue := if truthy a then a else b.

Definition onSuccess (content : jsstring) (sessionId data_sources : JsValue)
    (now : jsstring) : list effect :=
  let assistantMessage :=
    Message.mk assistant
      (match content with
       | [] => js "I apologize, but I encountered an error generating a response."
       | _ => content
       end)
      now None in
  [AppendMessage assistantMessage
     (if has_sources data_sources then Some data_sources else None);
   SetStreamingContent [];
   SetIsStreaming false;
   InvalidateSessions]
  ++ (if truthy sessionId then [OnSessionCreated sessionId] else [])
  ++ [OnMessageSent].

Definition onError (now : jsstring) : list effect :=
  let errorMessage :=
    Message.mk assistant
      (js "I apologize, but I encountered an error. Please try again.")
      now None in
  [AppendMessage errorMessage None;
   SetStreamingContent [];
   SetIsStreaming false].

(** [sendMessage(message, sessionId)] for one run [r] of the stream
    generator: [mutationFn], then [onSuccess] or [onError].  [now] and
    [later] are the clock readings for the two messages.  The [bool] is
    whether the promise of [mutateAsync] resolved. *)
Definition sendMessage (message : jsstring) (sessionId : JsValue)
    (now later : jsstring) (r : Api.run) : list effect * bool :=
  let userMessage := Message.mk user message now None in
  let '(fs, fullResponse, metadata) :=
    consume (Api.events r) [] initial_metadata in
  let started :=
    [AppendMessage userMessage None; SetIsStreaming true;
     SetStreamingContent []] ++ fs in
  match Api.finish r with
  | Api.Returned =>
      (started ++
       onSuccess fullResponse
         (or_value (field (js "session_id") metadata) sessionId)
         (or_value (field (js "sources") metadata) (JArray []))
         later,
       true)
  | Api.Threw _ => (started ++ onError later, false)
  end.

End UseChat.

Definition clearMessages (st : State) : State := mkState [] ∅ [] false.

(** The loop of [setMessagesFromHistory], from index [i] on. *)
Fixpoint reconstruct (i : nat) (historyMessages : list Message)
    (newSources : gmap nat JsValue) : gmap nat JsValue :=
  match historyMessages with
  | [] => newSources
  | msg :: rest =>
      reconstruct (S i) rest
        match Message.sources msg with
        | Some (firstSource :: others) =>
            match firstSource with
            | JString _ => newSources
            | _ => <[i := JArray (firstSource :: others)]> newSources
            end
        | _ => newSources
        end
  end.

Definition setMessagesFromHistory (historyMessages : list Message)
    (st : State) : State :=
  mkState historyMessages (reconstruct 0 historyMessages ∅)
          (streamingContent st) (isStreaming st).

(** *** Notions the properties are stated with *)

(** The stream event an effect consumes, if it is one. *)
Definition next_event (f : effect) : option Api.event :=
  match f with
  | Next ev => Some ev
  | _ => None
  end.

(** The message an effect appends, if it appends one. *)
Definition appended (f : effect) : option Message :=
  match f with
  | AppendMessage m _ => Some m
  | _ => None
  end.

(** The effects of the loop over the stream. *)
Definition streaming (f : effect) : Prop :=
  match f with
  | Next _ | SetStreamingContent _ => True
  | _ => False
  end.

(** The sources a message of the history is recorded with: its list when
    that holds full objects, nothing for a legacy list of ids. *)
Definition recorded_sources (msg : Message) : option JsValue :=
  match Message.sources msg with
  | Some (firstSource :: others) =>
      match firstSource with
      | JString _ => None
      | _ => Some (JArray (firstSource :: others))
      end
  | _ => None
  end.

(** Every index with recorded sources is the index of an assistant
    message. *)
Definition sources_at_assistants (st : State) : Prop :=
  forall i data_sources,
    sources st !! i = Some data_sources ->
    exists m, messages st !! i = Some m /\ Message.role m = assistant.

(** The text a content event adds, when its data is a string. *)
Definition delta_text (ev : Api.event) : option jsstring :=
  match Api.type ev, Api.data ev with
  | Api.content, JString text => Some text
  | _, _ => None
  end.

(** Every index with recorded sources is the index of a message. *)
Definition sources_in_range (st : State) : Prop :=
  forall i data_sources,
    sources st !! i = Some data_sources -> i < length (messages st).

End Chat.

(** ** [useChatSessions] ([@/hooks/useChatSessions]) *)

Module Sessions.

(** The query cache under the key [['sessions']] — [None] while nothing
    has been fetched —, whether the query has been invalidated, and the
    hook's own state. *)
Record State := mkState {
  cache : option (list ChatSession);
  invalidated : bool;
  currentSessionId : JsValue;
}.

(** [data: sessions = []] *)
Definition sessions (st : State) : list ChatSession := default [] (cache st).

(** [s.session_id !== sessionId] *)
Definition other_than (sessionId : jsstring) (s : ChatSession) : bool :=
  negb (str_eqb (ChatSession.session_id s) sessionId).

(** [onMutate]: the snapshot it returns as context, and the cache after
    the optimistic update. *)
Definition onMutate (sessionId : jsstring) (st : State)
  : option (list ChatSession) * State :=
  let previousSessions := cache st in
  (previousSessions,
   mkState
     (Some match cache st with
           | Some old => List.filter (other_than sessionId) old
           | None => []
           end)
     (invalidated st) (currentSessionId st)).

(** [onError]: an array, empty or not, is truthy. *)
Definition onError (previousSessions : option (list ChatSession))
    (st : State) : State :=
  match previousSessions with
  | Some previous =>
      mkState (Some previous) (invalidated st) (currentSessionId st)
  | None => st
  end.

Definition onSettled (st : State) : State :=
  mkState (cache st) true (currentSessionId st).

Definition setCurrentSessionId (id : JsValue) (st : State) : State :=
  mkState (cache st) (invalidated st) id.

(** [deleteSession(sessionId)], where [deleted] tells whether the request
    [DELETE /chat/sessions/:id] succeeded.  The [bool] is whether the
    promise resolved. *)
Definition deleteSession (sessionId : jsstring) (deleted : bool)
    (st : State) : State * bool :=
  let '(previousSessions, st1) := onMutate sessionId st in
  if deleted then
    let st2 := onSettled st1 in
    (if is_string (currentSessionId st2) sessionId
     then setCurrentSessionId JUndefined st2 else st2,
     true)
  else
    (onSettled (onError previousSessions st1), false).

Definition clearCurrentSession (st : State) : State :=
  setCurrentSessionId JUndefined st.

(** [invalidateSessions]: the timer of half a second has fired. *)
Definition invalidateSessions (st : State) : State := onSettled st.

(** [selectSession(sessionId)], where [loaded] is the list of messages
    [getSessionMessages] resolves with, or [None] when it rejects.  What
    the promise resolves with comes second. *)
Definition selectSession (sessionId : jsstring)
    (loaded : option (list Message)) (st : State)
  : State * option (jsstring * list Message) :=
  match loaded with
  | Some messages =>
      (setCurrentSessionId (JString sessionId) st, Some (sessionId, messages))
  | None => (st, None)
  end.

End Sessions.

(** ** [ChatPage] (the chat page) *)

Module Page.

Record State := mkState {
  auth : Auth.world;
  chat : Chat.State;
  sessions : Sessions.State;
  limitModalOpen : bool;
}.

Section ChatPage.

Variable JSON_parse : jsstring -> option JsValue.
Variable ToString : JsValue -> jsstring.
Variable ToNumber_positive : JsValue -> bool.

(** The callbacks the page hands to [useChat]: [onSessionCreated] and
    [onMessageSent]. *)
Definition callback (p : State) (f : Chat.effect) : State :=
  match f with
  | Chat.OnSessionCreated sessionId =>
      mkState (auth p) (chat p)
        (Sessions.invalidateSessions
           (Sessions.setCurrentSessionId sessionId (sessions p)))
        (limitModalOpen p)
  | Chat.OnMessageSent =>
      mkState (Auth.incrementMessageCount (auth p)) (chat p) (sessions p)
        (limitModalOpen p)
  | Chat.InvalidateSessions =>
      mkState (auth p) (chat p) (Sessions.onSettled (sessions p))
        (limitModalOpen p)
  | f => mkState (auth p) (Chat.apply (chat p) f) (sessions p)
           (limitModalOpen p)
  end.

(** Whether the send passed the gate and its stream ran to the end. *)
Inductive result := Refused | Failed | Completed.

(** [handleSendMessage(content)], for the outcome [f] of the [fetch] it
    leads to. *)
Definition handleSendMessage (content now later : jsstring)
    (f : Api.fetched) (p : State) : State * result :=
  if negb (Auth.canSendMessage (Auth.state (auth p))) then
    (mkState (auth p) (chat p) (sessions p) true, Refused)
  else
    let '(fs, resolved) :=
      Chat.sendMessage ToString ToNumber_positive content
        (Sessions.currentSessionId (sessions p)) now later
        (Api.streamMessage JSON_parse f) in
    (fold_left callback fs p, if resolved then Completed else Failed).

(** One send: its text, the two clock readings, what [fetch] gives. *)
Definition send : Type := jsstring * jsstring * jsstring * Api.fetched.

(** Sends one after the other, and how many of them completed. *)
Fixpoint handle_sends (sends : list send) (p : State) : State * nat :=
  match sends with
  | [] => (p, 0)
  | (content, now, later, f) :: rest =>
      let '(p1, outcome) := handleSendMessage content now later f p in
      let '(p2, n) := handle_sends rest p1 in
      (p2, match outcome with Completed => S n | _ => n end)
  end.

(** [messages.map((message, idx) => <ChatMessage message={message}
    sources={sources[idx]} />)] *)
Definition message_list (st : Chat.State) : list ChatMessage.element :=
  imap (fun idx message =>
          ChatMessage.ChatMessage message (Chat.sources st !! idx) false)
       (Chat.messages st).

End ChatPage.

End Page.

(** ** [SourcesDisplay] ([@/components/chat/SourcesDisplay]) *)

Module SourcesDisplay.

(** [v === 0] *)
Definition is_zero (v : JsValue) : bool :=
  match v with
  | JNumber _ m e => rounds_to_zero m e
  | _ => false
  end.

(** Whether the component renders anything: it returns [null] when
    [!sources || sources.length === 0]. *)
Definition renders (sources : JsValue) : bool :=
  negb (negb (truthy sources) || is_zero (Chat.length_of sources)).

(** The header: the number of sources and [Source] or [Sources]. *)
Definition header (sources : list JsValue) : nat * jsstring :=
  (length sources,
   if Nat.eqb (length sources) 1 then js "Source" else js "Sources").

(** The line shown for a question:
    [question.slice(0, 50)] and [...] when it is longer. *)
Definition preview (question : jsstring) : jsstring :=
  take 50 question ++
  (if Nat.ltb 50 (length question) then js "..." else []).

End SourcesDisplay.

(** ** [ChatInput] ([@/components/chat/ChatInput]) *)

Module ChatInput.

(** [handleSubmit]: what is handed to [onSend], if anything, and the
    draft left in the text area. *)
Definition handleSubmit (disabled loading : bool) (message : jsstring)
  : option jsstring * jsstring :=
  if truthy (JString (trim message)) && negb disabled && negb loading then
    (Some (trim message), [])
  else (None, message).

(** [handleKeyDown]: Enter without Shift submits. *)
Definition handleKeyDown (key : jsstring) (shiftKey : bool)
    (disabled loading : bool) (message : jsstring)
  : option jsstring * jsstring :=
  if str_eqb key (js "Enter") && negb shiftKey then
    handleSubmit disabled loading message
  else (None, message).

(** The [disabled] attribute of the submit button. *)
Definition submit_disabled (disabled loading : bool) (message : jsstring)
  : bool :=
  negb (truthy (JString (trim message))) || disabled || loading.

End ChatInput.

(** ** [RegisterModal] ([@/components/auth/RegisterModal]) *)

Module RegisterModal.

(** The state of the form.  [error] is declared a string; what is put
    there after a failure is whatever the backend sent as detail. *)
Record form := Form {
  email : jsstring;
  password : jsstring;
  confirmPassword : jsstring;
  error : JsValue;
  loading : bool;
}.

(** [handleSubmit], run to its end: the form it leaves, whether it called
    [onClose], what [register] did when it was called, and the provider
    afterwards. *)
Record submitted := Submitted {
  form_after : form;
  closed : bool;
  registration : option Auth.settled;
  world_after : Auth.world;
}.

(** [detail] is [err.response?.data?.detail] of the error a rejected
    [register] throws. *)
Definition handleSubmit (server : Api.backend) (detail : JsValue)
    (f : form) (w : Auth.world) : submitted :=
  if negb (str_eqb (password f) (confirmPassword f)) then
    Submitted
      (Form (email f) (password f) (confirmPassword f)
            (JString (js "Passwords do not match")) (loading f))
      false None w
  else if Nat.ltb (length (password f)) 8 then
    Submitted
      (Form (email f) (password f) (confirmPassword f)
            (JString (js "Password must be at least 8 characters"))
            (loading f))
      false None w
  else
    let r := Auth.register server
               (RegisterRequest.mk (email f) (password f) None) w in
    if Auth.resolved r then
      Submitted (Form [] [] [] (JString []) false) true (Some r)
        (Auth.after r)
    else
      Submitted
        (Form (email f) (password f) (confirmPassword f)
              (if truthy detail then detail
               else JString (js "Failed to register. Please try again."))
              false)
        false (Some r) (Auth.after r).

End RegisterModal.

(** ** [ChatPage]: the handlers of the sidebar and of the input *)

Module ChatPage.

(** The page with the flags of its panels. *)
Record UI := mkUI {
  page : Page.State;
  sidebarOpen : bool;
  loginModalOpen : bool;
  registerModalOpen : bool;
}.

Definition with_page (u : UI) (p : Page.State) : UI :=
  mkUI p (sidebarOpen u) (loginModalOpen u) (registerModalOpen u).

Definition handleNewChat (p : Page.State) : Page.State :=
  Page.mkState (Page.auth p) (Chat.clearMessages (Page.chat p))
    (Sessions.clearCurrentSession (Page.sessions p)) (Page.limitModalOpen p).

(** [handleSelectSession(sessionId)]; [loaded] as for [selectSession]. *)
Definition handleSelectSession (sessionId : jsstring)
    (loaded : option (list Message)) (u : UI) : UI :=
  let p := page u in
  match Sessions.selectSession sessionId loaded (Page.sessions p) with
  | (sessions', Some (_, messages)) =>
      mkUI (Page.mkState (Page.auth p)
              (Chat.setMessagesFromHistory messages (Page.chat p))
              sessions' (Page.limitModalOpen p))
           false (loginModalOpen u) (registerModalOpen u)
  | (sessions', None) =>
      with_page u (Page.mkState (Page.auth p) (Page.chat p) sessions'
                     (Page.limitModalOpen p))
  end.

(** [handleDeleteSession(sessionId)]; [deleted] as for [deleteSession].
    The test after the [await] reads the [currentSessionId] of the render
    the handler was created in. *)
Definition handleDeleteSession (sessionId : jsstring) (deleted : bool)
    (p : Page.State) : Page.State :=
  let '(sessions', resolved) :=
    Sessions.deleteSession sessionId deleted (Page.sessions p) in
  let p' := Page.mkState (Page.auth p) (Page.chat p) sessions'
              (Page.limitModalOpen p) in
  if resolved &&
     is_string (Sessions.currentSessionId (Page.sessions p)) sessionId
  then handleNewChat p' else p'.

Definition handleLimitModalRegister (u : UI) : UI :=
  mkUI (Page.mkState (Page.auth (page u)) (Page.chat (page u))
          (Page.sessions (page u)) false)
       (sidebarOpen u) (loginModalOpen u) true.

Definition handleLimitModalLogin (u : UI) : UI :=
  mkUI (Page.mkState (Page.auth (page u)) (Page.chat (page u))
          (Page.sessions (page u)) false)
       (sidebarOpen u) true (registerModalOpen u).

(** [3 - anonymousMessageCount], the free messages the page shows as
    left. *)
Definition free_messages_left (s : AuthState) : number :=
  match AuthState.anonymousMessageCount s with
  | Int z => Int (3 - z)
  | NaN => NaN
  end.

(** The props the page gives the [ChatInput]:
    [disabled={!canSendMessage()}] and [loading={isLoading}]. *)
Definition input_disabled (p : Page.State) : bool :=
  negb (Auth.canSendMessage (Auth.state (Page.auth p))).

(** Whether the element of the message list shows a sources panel. *)
Definition shows_sources (el : ChatMessage.element) : bool :=
  match ChatMessage.sourcesDisplay el with
  | Some sources => SourcesDisplay.renders sources
  | None => false
  end.

End ChatPage.

(** ** [DocumentsPage] (the knowledge-base page) *)

Module Document.
Record meta := mkMeta {
  question : option jsstring;
  answer : option jsstring;
  category : option jsstring;
  source : option jsstring;
}.
Record t := mk {
  id : jsstring;
  score : JsValue;
  text : jsstring;
  metadata : meta;
}.
End Document.
Abbreviation Document := Document.t.

Module Documents.

(** [s.includes(sub)] *)
Fixpoint includes (s sub : jsstring) : bool :=
  startsWith s sub ||
  match s with
  | [] => false
  | _ :: s' => includes s' sub
  end.

(** [Boolean(c)] for an optional string. *)
Definition named (c : option jsstring) : bool := present c.

(** The values of [new Set(items)], in the order of insertion: every item
    where it occurs first. *)
Fixpoint distinct (seen items : list jsstring) : list jsstring :=
  match items with
  | [] => []
  | x :: rest =>
      if existsb (str_eqb x) seen then distinct seen rest
      else x :: distinct (x :: seen) rest
  end.

(** [['all', ...new Set(documents.map(doc => doc.metadata.category)
    .filter(Boolean))]] *)
Definition categories (documents : list Document) : list jsstring :=
  js "all" ::
  distinct []
    (omap (fun doc =>
             if named (Document.category (Document.metadata doc))
             then Document.category (Document.metadata doc) else None)
          documents).

(** [doc.metadata.category || 'Unknown'] *)
Definition category_or_unknown (doc : Document) : jsstring :=
  or_else (Document.category (Document.metadata doc)) (js "Unknown").

(** An entry of the object [categoryCounts]: a count, or, under a name
    that objects inherit, something that is not a number: the text [+ 1]
    makes of the inherited value or, for [__proto__], the prototype
    itself, which the assignment leaves in place. *)
Inductive tally := Count (n : nat) | NotACount.

Section DocumentsPage.

(** [text.toLowerCase()], and whether a name is one of the properties
    every object inherits ([constructor], [toString], ...). *)
Variable toLowerCase : jsstring -> jsstring.
Variable inherited : jsstring -> bool.

(** [acc[category] = (acc[category] || 0) + 1] *)
Definition count_one (acc : gmap (list N) tally) (category : jsstring)
  : gmap (list N) tally :=
  <[category :=
      match acc !! category with
      | Some (Count n) => Count (n + 1)
      | Some NotACount => NotACount
      | None => if inherited category then NotACount else Count 1
      end]> acc.

(** [documents.reduce((acc, doc) => ..., {})] *)
Definition categoryCounts (documents : list Document) : gmap (list N) tally :=
  fold_left (fun acc doc => count_one acc (category_or_unknown doc))
            documents ∅.

(** [value?.toLowerCase().includes(searchQuery.toLowerCase())] *)
Definition field_matches (value : option jsstring) (searchQuery : jsstring)
  : bool :=
  match value with
  | Some v => includes (toLowerCase v) (toLowerCase searchQuery)
  | None => false
  end.

Definition matchesSearch (searchQuery : jsstring) (doc : Document) : bool :=
  negb (truthy (JString searchQuery)) ||
  includes (toLowerCase (Document.text doc)) (toLowerCase searchQuery) ||
  field_matches (Document.question (Document.metadata doc)) searchQuery ||
  field_matches (Document.category (Document.metadata doc)) searchQuery.

Definition matchesCategory (selectedCategory : jsstring) (doc : Document)
  : bool :=
  str_eqb selectedCategory (js "all") ||
  match Document.category (Document.metadata doc) with
  | Some c => str_eqb c selectedCategory
  | None => false
  end.

Definition filteredDocuments (searchQuery selectedCategory : jsstring)
    (documents : list Document) : list Document :=
  List.filter (fun doc => matchesSearch searchQuery doc &&
                          matchesCategory selectedCategory doc) documents.

End DocumentsPage.

End Documents.

(** ** Sample data *)

Module Sample.

(** A response with status 200 and the given body. *)
Definition ok_response (chunks : list jsstring) (e : Api.body_end)
  : Api.fetched :=
  Api.Resolved {| Api.ok := true; Api.status := 200;
                  Api.body := Some (chunks, e) |}.

Definition hello : jsstring := jsq "{'type':'content','data':'Hello'}".
Definition hel : jsstring := jsq "{'type':'content','data':'Hel'}".
Definition lo : jsstring := jsq "{'type':'content','data':'lo'}".
Definition empty_delta : jsstring := jsq "{'type':'content','data':''}".
Definition cited : jsstring :=
  jsq "{'type':'sources','data':[{'id':'faq-1','score':0.9,'text':'Fees'}]}".
Definition session : jsstring :=
  jsq "{'type':'metadata','session_id':'s-1'}".

Definition source_faq1 : JsValue :=
  JObject [(js "id", JString (js "faq-1"));
           (js "score", JNumber false 9 (-1));
           (js "text", JString (js "Fees"))].

(** A whole answer: two deltas, the sources, the session, the marker. *)
Definition answer_payloads : list jsstring := [hel; lo; cited; session].

Definition answer_events : list Api.event :=
  [Api.Event Api.content (JString (js "Hel"));
   Api.Event Api.content (JString (js "lo"));
   Api.Event Api.metadata (JObject [(js "sources", JArray [source_faq1])]);
   Api.Event Api.metadata
     (JObject [(js "type", JString (js "metadata"));
               (js "session_id", JString (js "s-1"))])].

(** The answer in three chunks that end at line breaks; the first ends
    inside the second frame, between its two line feeds. *)
Definition answer_chunks : list jsstring :=
  [(Api.sse_frame hel ++ js "data: " ++ lo) ++ [LF];
   ([LF] ++ js "data: " ++ cited ++ [LF]) ++ [LF];
   Api.sse_frame session ++ Api.sse_frame (js "[DONE]")].

(** The answer as one chunk. *)
Definition answer : jsstring := concat answer_chunks.

(** The coercions for the samples: they stream strings and lists only, so
    neither is ever applied. *)
Definition ToString (v : JsValue) : jsstring := [].
Definition ToNumber_positive (v : JsValue) : bool := false.

Definition page : Page.State :=
  Page.mkState (Auth.World Auth.initial_state ∅) Chat.initial
    (Sessions.mkState None false JUndefined) false.

(** Four questions: the first three are answered, the connection of the
    second attempt is lost once. *)
Definition sends : list Page.send :=
  [(js "How do I send money?", js "09:00", js "09:01",
    ok_response answer_chunks Api.EndOfBody);
   (js "What are the fees?", js "09:02", js "09:03", Api.Rejected);
   (js "What are the fees?", js "09:04", js "09:05",
    ok_response [answer] Api.EndOfBody);
   (js "Is there a limit?", js "09:06", js "09:07",
    ok_response [answer] Api.EndOfBody);
   (js "And abroad?", js "09:08", js "09:09",
    ok_response [answer] Api.EndOfBody)].

Definition new_user : RegisterRequest :=
  RegisterRequest.mk (js "ana@example.com") (js "secret") None.

(** A backend that accepts every request. *)
Definition accepting : Api.backend :=
  fun _ => Some (AuthResponse.mk (js "token-1") (js "bearer")
                   (User.mk (js "u-1") (js "ana@example.com") (js "09:10"))).

(** A visitor who has sent two messages in the anonymous session [s-1]. *)
Definition visitor : Auth.world :=
  Auth.World
    (AuthState.mk None false true (Int 2) false)
    (setItem Auth.SESSION_ID_KEY (js "s-1")
       (setItem Auth.MESSAGE_COUNT_KEY (js "2") ∅)).

(** A history whose user message carries full sources. *)
Definition history : list Message :=
  [Message.mk user (js "What are the fees?") (js "09:00")
     (Some [source_faq1]);
   Message.mk assistant (js "None.") (js "09:01") (Some [JString (js "faq-1")])].

(** A content frame without text that carries the session id. *)
Definition empty_with_session : jsstring :=
  jsq "{'type':'content','data':'','session_id':'s-1'}".

(** A stream with frames of every kind: two of them have no event. *)
Definition mixed_payloads : list jsstring :=
  [hel; empty_delta; lo; js "null"; cited; empty_with_session; session].

Definition mixed_outputs : list (option Api.event) :=
  [Some (Api.Event Api.content (JString (js "Hel")));
   None;
   Some (Api.Event Api.content (JString (js "lo")));
   None;
   Some (Api.Event Api.metadata
           (JObject [(js "sources", JArray [source_faq1])]));
   Some (Api.Event Api.metadata
           (JObject [(js "type", JString (js "content"));
                     (js "data", JString []);
                     (js "session_id", JString (js "s-1"))]));
   Some (Api.Event Api.metadata
           (JObject [(js "type", JString (js "metadata"));
                     (js "session_id", JString (js "s-1"))]))].

(** The stream in chunks that end at line breaks, with the marker. *)
Definition mixed_chunks : list jsstring :=
  [Api.sse_frame hel ++ Api.sse_frame empty_delta;
   [];
   (Api.sse_frame lo ++ js "data: null") ++ [LF];
   ([LF] ++ Api.sse_frame cited ++ Api.sse_frame empty_with_session
         ++ js "data: " ++ session) ++ [LF];
   [LF] ++ Api.sse_frame (js "[DONE]")].


(** The credentials of the same user. *)
Definition credentials : LoginRequest :=
  LoginRequest.mk (js "ana@example.com") (js "secret").

(** The chat page of the visitor once signed in. *)
Definition member_page : Page.State :=
  Page.mkState (Auth.after (Auth.login accepting credentials visitor))
    Chat.initial (Sessions.mkState None false JUndefined) false.

(** The chat page of a visitor who has used the three free messages. *)
Definition spent_page : Page.State :=
  Page.mkState
    (Auth.World (AuthState.mk None false true (Int 3) false)
       (setItem Auth.MESSAGE_COUNT_KEY (js "3") ∅))
    Chat.initial (Sessions.mkState None false JUndefined) false.

(** [toLowerCase] on the letters A to Z. *)
Definition toLowerCase (s : jsstring) : jsstring :=
  map (fun c => if (N.leb 65 c && N.leb c 90)%bool then (c + 32)%N else c) s.

(** The names an object literal inherits from [Object.prototype]. *)
Definition inherited (name : jsstring) : bool :=
  existsb (str_eqb name)
    [js "constructor"; js "toString"; js "toLocaleString"; js "valueOf";
     js "hasOwnProperty"; js "isPrototypeOf"; js "propertyIsEnumerable";
     js "__proto__"; js "__defineGetter__"; js "__defineSetter__";
     js "__lookupGetter__"; js "__lookupSetter__"].

(** Three documents: two on fees, one without a category. *)
Definition documents : list Document :=
  [Document.mk (js "faq-1") (JNumber false 9 (-1)) (js "Fees")
     (Document.mkMeta (Some (js "What are the fees?")) (Some (js "None."))
        (Some (js "Fees")) (Some (js "faq")));
   Document.mk (js "faq-2") (JNumber false 8 (-1)) (js "Transfer fees")
     (Document.mkMeta (Some (js "Do transfers cost?")) (Some (js "No."))
        (Some (js "Fees")) (Some (js "faq")));
   Document.mk (js "faq-3") (JNumber false 5 (-1)) (js "Opening hours")
     (Document.mkMeta None None None None)].

End Sample.

(** * Properties *)

(** ** Strings *)

Lemma str_eqb_eq (a b : jsstring) : str_eqb a b = true <-> a = b.
Proof.
  revert b. induction a as [|x a IH]; intros [|y b]; simpl; try easy.
  rewrite andb_true_iff, N.eqb_eq, IH. split.
  - intros [-> ->]. reflexivity.
  - intros [= -> ->]. auto.
Qed.

Lemma str_eqb_refl (a : jsstring) : str_eqb a a = true.
Proof. apply str_eqb_eq. reflexivity. Qed.

Lemma str_eqb_neq (a b : jsstring) : str_eqb a b = false <-> a <> b.
Proof.
  rewrite <- str_eqb_eq. destruct (str_eqb a b); split; congruence.
Qed.

Lemma split_nonempty (sep : N) (s : jsstring) : split sep s <> [].
Proof.
  destruct s as [|c s]; simpl; [easy|].
  destruct (N.eqb c sep); [easy|]. destruct (split sep s); easy.
Qed.

(** Splitting distributes over a separator. *)
Lemma split_app_sep (sep : N) (a b : jsstring) :
  split sep (a ++ sep :: b) = split sep a ++ split sep b.
Proof.
  induction a as [|c a IH]; simpl.
  - rewrite N.eqb_refl. reflexivity.
  - destruct (N.eqb c sep); [rewrite IH; reflexivity|].
    rewrite IH. destruct (split sep a) eqn:E; [|reflexivity].
    exfalso. eapply split_nonempty, E.
Qed.

(** A text without the separator is one piece. *)
Lemma split_none (sep : N) (a : jsstring) : sep ∉ a -> split sep a = [a].
Proof.
  induction a as [|c a IH]; intros Hin; simpl; [reflexivity|].
  destruct (N.eqb_spec c sep) as [->|Hne].
  - exfalso. apply Hin. left.
  - rewrite IH; [reflexivity|]. intros H. apply Hin. right. exact H.
Qed.

Lemma trimStart_snoc_nonempty (l : jsstring) (c : N) :
  is_js_whitespace c = false -> trimStart (l ++ [c]) <> [].
Proof.
  intros Hc. induction l as [|x l IH]; simpl.
  - rewrite Hc. easy.
  - destruct (is_js_whitespace x); [exact IH|easy].
Qed.

(** A text that starts with a visible character does not trim to the
    empty string. *)
Lemma trim_nonempty (c : N) (s : jsstring) :
  is_js_whitespace c = false -> trim (c :: s) <> [].
Proof.
  intros Hc. unfold trim. simpl trimStart at 2. rewrite Hc.
  intros H. apply (f_equal (@rev N)) in H. rewrite rev_involutive in H.
  simpl in H. eapply trimStart_snoc_nonempty; eauto.
Qed.

(** ** The stream generator *)

Section StreamFacts.

Import Api.
Variable JSON_parse : jsstring -> option JsValue.

Local Abbreviation on_line := (Api.on_line JSON_parse).
Local Abbreviation for_lines := (Api.for_lines JSON_parse).
Local Abbreviation read_loop := (Api.read_loop JSON_parse).
Local Abbreviation stream_lines := (Api.stream_lines JSON_parse).

Lemma for_lines_app (ls1 ls2 : list jsstring) :
  for_lines (ls1 ++ ls2) =
    if snd (for_lines ls1) then (fst (for_lines ls1), true)
    else (fst (for_lines ls1) ++ fst (for_lines ls2), snd (for_lines ls2)).
Proof.
  induction ls1 as [|l ls1 IH]; simpl.
  - destruct (for_lines ls2). reflexivity.
  - destruct (on_line l); [exact IH| |reflexivity].
    rewrite IH. destruct (for_lines ls1) as [e1 [|]]; simpl; reflexivity.
Qed.

(** The two loops of the generator see the lines of all chunks in order
    and stop at the first marker. *)
Lemma read_loop_lines (chunks : list jsstring) (e : body_end) :
  (events (read_loop chunks e), finish (read_loop chunks e)) =
    stream_lines (lines_of chunks) e.
Proof.
  unfold Api.stream_lines, lines_of.
  induction chunks as [|c chunks IH]; simpl.
  - destruct e; reflexivity.
  - rewrite for_lines_app.
    destruct (for_lines (split LF c)) as [e1 [|]]; simpl; [reflexivity|].
    destruct (for_lines (concat (map (split LF) chunks))) as [e2 s2].
    injection IH as IHe IHf. rewrite IHe, IHf.
    reflexivity.
Qed.

Lemma read_loop_events (chunks : list jsstring) (e : body_end) :
  events (read_loop chunks e) = fst (for_lines (lines_of chunks)).
Proof.
  pose proof (read_loop_lines chunks e) as H. unfold Api.stream_lines in H.
  destruct (for_lines (lines_of chunks)). injection H as H _. exact H.
Qed.

Lemma read_loop_finish (chunks : list jsstring) (e : body_end) :
  finish (read_loop chunks e) =
    if snd (for_lines (lines_of chunks)) then Returned
    else match e with
         | EndOfBody => Returned
         | ReadRejects => Threw ReadFailed
         end.
Proof.
  pose proof (read_loop_lines chunks e) as H. unfold Api.stream_lines in H.
  destruct (for_lines (lines_of chunks)). injection H as _ H. exact H.
Qed.


Lemma read_loop_reads (chunks : list jsstring) (e : body_end) :
  reads (read_loop chunks e) <= S (length chunks).
Proof.
  induction chunks as [|c chunks IH]; simpl.
  - destruct e; simpl; lia.
  - destruct (for_lines (split LF c)) as [e1 [|]]; simpl; lia.
Qed.

Lemma lines_of_app (cs1 cs2 : list jsstring) :
  lines_of (cs1 ++ cs2) = lines_of cs1 ++ lines_of cs2.
Proof. unfold lines_of. rewrite map_app, concat_app. reflexivity. Qed.

Lemma on_line_empty : on_line [] = Skip.
Proof. reflexivity. Qed.

(** The line of a frame: the marker stops, a payload that parses is
    classified, any other is skipped. *)
Lemma on_line_data (payload : jsstring) :
  on_line (js "data: " ++ payload) =
    if str_eqb (trim payload) (js "[DONE]") then Stop
    else match JSON_parse (trim payload) with
         | Some parsed => classify parsed
         | None => Skip
         end.
Proof.
  unfold Api.on_line.
  replace (startsWith (js "data: " ++ payload) (js "data: ")) with true
    by (destruct payload; reflexivity).
  replace (slice (js "data: " ++ payload) 6) with payload by reflexivity.
  destruct (trim (js "data: " ++ payload)) eqn:E; [|reflexivity].
  exfalso. revert E. apply trim_nonempty. reflexivity.
Qed.

Lemma classify_frame (parsed : JsValue) (ev : event) :
  frame_event parsed ev -> classify parsed = Yield ev.
Proof.
  intros H. destruct H as [fs Hty Hd|fs Hty Hd|fs Hty|fs Hsid Hother];
    unfold classify, get_prop.
  - rewrite Hty, Hd. reflexivity.
  - rewrite Hd, Hty.
    destruct (field (js "type") fs) as [| | | |s| |]; try discriminate.
    apply str_eqb_eq in Hty. subst s. reflexivity.
  - rewrite Hty.
    destruct (field (js "type") fs) as [| | | |s| |]; try discriminate.
    apply str_eqb_eq in Hty. subst s. reflexivity.
  - rewrite Hsid, orb_true_r.
    destruct Hother as [Hd|[Hc Hs]].
    + rewrite Hd, !andb_false_r. reflexivity.
    + rewrite Hc, Hs. reflexivity.
Qed.

(** The three-way test yields nothing but the event of the frame. *)
Lemma classify_sound (parsed : JsValue) (ev : event) :
  classify parsed = Yield ev -> frame_event parsed ev.
Proof.
  unfold classify. destruct parsed as [| | | | | |fs]; cbn [get_prop];
    try discriminate.
  destruct (is_string (field (js "type") fs) (js "content")) eqn:Hc,
           (truthy (field (js "data") fs)) eqn:Hd,
           (is_string (field (js "type") fs) (js "sources")) eqn:Hs,
           (is_string (field (js "type") fs) (js "metadata")) eqn:Hm,
           (truthy (field (js "session_id") fs)) eqn:Hsid;
    cbn [andb orb]; intros H; try discriminate H; injection H as <-;
    first [ apply fe_content; assumption
          | apply fe_sources; assumption
          | apply fe_metadata; assumption
          | apply fe_session; auto ].
Qed.

Lemma classify_never_stops (parsed : JsValue) : classify parsed <> Stop.
Proof.
  unfold classify.
  destruct (get_prop parsed (js "type")) as [ty|]; [|discriminate].
  destruct (get_prop parsed (js "data")) as [d|]; [|discriminate].
  destruct (get_prop parsed (js "session_id")) as [sid|]; [|discriminate].
  destruct (is_string ty (js "content") && truthy d); [discriminate|].
  destruct (is_string ty (js "sources") && truthy d); [discriminate|].
  destruct (is_string ty (js "metadata") || truthy sid); discriminate.
Qed.

(** A frame without an event is passed over. *)
Lemma classify_silent (parsed : JsValue) :
  (forall ev, ~ frame_event parsed ev) -> classify parsed = Skip.
Proof.
  intros Hnone. destruct (classify parsed) as [|ev|] eqn:E.
  - reflexivity.
  - exfalso. apply (Hnone ev), classify_sound, E.
  - exfalso. exact (classify_never_stops _ E).
Qed.

(** What is to be yielded for a frame is what the test yields. *)
Lemma classify_output (parsed : JsValue) (out : option event) :
  frame_output parsed out ->
  classify parsed = match out with Some ev => Yield ev | None => Skip end.
Proof.
  destruct out as [ev|]; [apply classify_frame|apply classify_silent].
Qed.

(** Every frame has an output, and only one. *)
Lemma frame_output_total (parsed : JsValue) :
  exists out, frame_output parsed out.
Proof.
  destruct (classify parsed) as [|ev|] eqn:E.
  - exists None. intros ev H. apply classify_frame in H. congruence.
  - exists (Some ev). apply classify_sound, E.
  - exfalso. exact (classify_never_stops _ E).
Qed.

Lemma frame_output_functional (parsed : JsValue) (out1 out2 : option event) :
  frame_output parsed out1 -> frame_output parsed out2 -> out1 = out2.
Proof.
  intros H1 H2. apply classify_output in H1, H2. rewrite H1 in H2.
  destruct out1, out2; congruence.
Qed.

Lemma on_line_frame (payload : jsstring) (ev : event) :
  well_formed_frame JSON_parse payload ev ->
  on_line (js "data: " ++ payload) = Yield ev.
Proof.
  intros (_ & Hdone & parsed & Hparse & Hev).
  rewrite on_line_data, Hparse.
  apply str_eqb_neq in Hdone. rewrite Hdone.
  apply classify_frame, Hev.
Qed.

Lemma on_line_sent (payload : jsstring) (out : option event) :
  sent_frame JSON_parse payload out ->
  on_line (js "data: " ++ payload) =
    match out with Some ev => Yield ev | None => Skip end.
Proof.
  intros (_ & Hdone & parsed & Hparse & Hout).
  rewrite on_line_data, Hparse.
  apply str_eqb_neq in Hdone. rewrite Hdone.
  apply classify_output, Hout.
Qed.


Lemma split_frame (payload rest : jsstring) :
  LF ∉ payload ->
  split LF (sse_frame payload ++ rest) =
    (js "data: " ++ payload) :: [] :: split LF rest.
Proof.
  intros Hin. unfold sse_frame.
  replace ((js "data: " ++ payload ++ [LF; LF]) ++ rest)
    with ((js "data: " ++ payload) ++ LF :: ([] ++ LF :: rest))
    by (rewrite <- !app_assoc; reflexivity).
  rewrite !split_app_sep. rewrite split_none; [reflexivity|].
  intros H. apply elem_of_app in H as [H|H]; [|auto].
  change (js "data: ") with [100; 97; 116; 97; 58; 32]%N in H.
  repeat (apply elem_of_cons in H as [H|H]; [discriminate H|]).
  inversion H.
Qed.

(** The frames of a stream that is read as one text give what their
    lines give, one after the other. *)
Lemma for_lines_payloads (payloads : list jsstring)
    (outs : list (option event)) (tail : jsstring) :
  Forall2 (fun payload out =>
             (LF ∉ payload) /\
             on_line (js "data: " ++ payload) =
               match out with Some ev => Yield ev | None => Skip end)
          payloads outs ->
  for_lines (split LF (concat (map sse_frame payloads) ++ tail)) =
    (omap id outs ++ fst (for_lines (split LF tail)),
     snd (for_lines (split LF tail))).
Proof.
  induction 1 as [|p out ps outs [Hp Hline] _ IH].
  - simpl. destruct (for_lines (split LF tail)); reflexivity.
  - change (concat (map sse_frame (p :: ps)))
      with (sse_frame p ++ concat (map sse_frame ps)).
    rewrite <- app_assoc, split_frame by exact Hp.
    cbn [Api.for_lines]. rewrite Hline, on_line_empty, IH.
    destruct out; reflexivity.
Qed.

Lemma for_lines_frames (payloads : list jsstring)
    (outs : list (option event)) (tail : jsstring) :
  Forall2 (sent_frame JSON_parse) payloads outs ->
  for_lines (split LF (concat (map sse_frame payloads) ++ tail)) =
    (omap id outs ++ fst (for_lines (split LF tail)),
     snd (for_lines (split LF tail))).
Proof.
  intros H. apply for_lines_payloads.
  eapply Forall2_impl; [exact H|].
  intros payload out Hs. split; [apply Hs|apply on_line_sent, Hs].
Qed.

(** The lines of the marker, or of nothing, give no event. *)
Lemma for_lines_tail (tail : jsstring) :
  tail = [] \/ (exists rest, tail = sse_frame (js "[DONE]") ++ rest) ->
  fst (for_lines (split LF tail)) = [] /\
  (snd (for_lines (split LF tail)) = true <-> tail <> []).
Proof.
  intros [->|[rest ->]].
  - split; [reflexivity|]. split; [discriminate|congruence].
  - rewrite split_frame.
    + cbn [Api.for_lines]. rewrite on_line_data. cbn.
      split; [reflexivity|]. split; [discriminate|reflexivity].
    + change (js "[DONE]") with [91; 68; 79; 78; 69; 93]%N.
      intros H.
      repeat (apply elem_of_cons in H as [H|H]; [discriminate H|]).
      inversion H.
Qed.

(** Chunks that end at line breaks are read like their concatenation. *)
Lemma for_lines_aligned (chunks : list jsstring) :
  line_aligned chunks ->
  for_lines (lines_of chunks) = for_lines (split LF (concat chunks)).
Proof.
  induction chunks as [|c chunks IH]; intros Hal.
  - reflexivity.
  - destruct chunks as [|c' chunks].
    + unfold lines_of. simpl. rewrite !app_nil_r. reflexivity.
    + destruct Hal as [Hc Hal]. specialize (IH Hal).
      change (lines_of (c :: c' :: chunks))
        with (split LF c ++ lines_of (c' :: chunks)).
      change (concat (c :: c' :: chunks))
        with (c ++ concat (c' :: chunks)).
      destruct Hc as [->|[a ->]].
      * simpl app. change (split LF []) with [@nil N].
        change (for_lines ([] :: lines_of (c' :: chunks)))
          with (for_lines (lines_of (c' :: chunks))).
        exact IH.
      * rewrite <- app_assoc. simpl app at 3.
        rewrite !split_app_sep. change (split LF []) with [@nil N].
        rewrite <- app_assoc. rewrite !(for_lines_app (split LF a)).
        change (for_lines ([[]] ++ lines_of (c' :: chunks)))
          with (for_lines (lines_of (c' :: chunks))).
        rewrite IH. reflexivity.
Qed.

Lemma startsWith_app (s p : jsstring) :
  startsWith s p = true -> s = p ++ drop (length p) s.
Proof.
  revert s. induction p as [|y p IH]; intros s H.
  - destruct s; reflexivity.
  - destruct s as [|x s]; [discriminate|]. simpl in H.
    apply andb_true_iff in H as [Hx Hs]. apply N.eqb_eq in Hx. subst y.
    simpl. f_equal. apply IH, Hs.
Qed.

(** A line that starts with [data: ] is that prefix and its payload. *)
Lemma data_line (line : jsstring) :
  startsWith line (js "data: ") = true ->
  line = js "data: " ++ slice line 6.
Proof. intros H. apply (startsWith_app _ _ H). Qed.

Lemma on_line_marker (line : jsstring) :
  startsWith line (js "data: ") = true ->
  trim (slice line 6) = js "[DONE]" ->
  on_line line = Stop.
Proof.
  intros Hs Hd. rewrite (data_line _ Hs), on_line_data, Hd. reflexivity.
Qed.

Lemma on_line_malformed (line : jsstring) :
  startsWith line (js "data: ") = true ->
  trim (slice line 6) <> js "[DONE]" ->
  JSON_parse (trim (slice line 6)) = None ->
  on_line line = Skip.
Proof.
  intros Hs Hd Hp. rewrite (data_line _ Hs), on_line_data, Hp.
  apply str_eqb_neq in Hd. rewrite Hd. reflexivity.
Qed.

Lemma for_lines_skip (pre post : list jsstring) (line : jsstring) :
  on_line line = Skip ->
  for_lines (pre ++ line :: post) = for_lines (pre ++ post).
Proof.
  intros H. rewrite !for_lines_app. cbn [Api.for_lines]. rewrite H.
  reflexivity.
Qed.

Lemma for_lines_stop (pre post : list jsstring) (line : jsstring) :
  on_line line = Stop ->
  for_lines (pre ++ line :: post) = (fst (for_lines pre), true).
Proof.
  intros H. rewrite for_lines_app. cbn [Api.for_lines]. rewrite H.
  destruct (for_lines pre) as [evs [|]]; simpl; [reflexivity|].
  rewrite app_nil_r. reflexivity.
Qed.

Lemma read_loop_stop_reads (cs1 cs2 : list jsstring) (c : jsstring)
    (e : body_end) :
  snd (for_lines (split LF c)) = true ->
  reads (read_loop (cs1 ++ c :: cs2) e) <= S (length cs1).
Proof.
  intros Hc. induction cs1 as [|c0 cs1 IH]; simpl.
  - destruct (for_lines (split LF c)) as [evs stopped]. simpl in Hc.
    subst stopped. simpl. lia.
  - destruct (for_lines (split LF c0)) as [evs [|]]; simpl; lia.
Qed.

(** C1 (amended).  When no line of the stream is cut by a chunk boundary
    (every chunk but the last is empty or ends with a line feed), the
    generator yields, for the frames the backend sent before the
    end-of-stream marker and in their order, exactly one event for every
    frame that has one and none for the others: a content event for a
    [{type: content}] frame with non-empty data, a metadata event
    carrying [{sources: data}] for a [{type: sources}] frame with data, a
    metadata event carrying the frame for a [{type: metadata}] frame and
    for any other frame with a session id, and nothing for a frame of
    none of these kinds.  Nothing is dropped and nothing is yielded
    twice. *)
Theorem streamMessage_line_aligned_frames
    (payloads : list jsstring) (outs : list (option event)) (tail : jsstring)
    (chunks : list jsstring) (e : body_end) (status : N) :
  Forall2 (sent_frame JSON_parse) payloads outs ->
  tail = [] \/ (exists rest, tail = sse_frame (js "[DONE]") ++ rest) ->
  concat chunks = concat (map sse_frame payloads) ++ tail ->
  line_aligned chunks ->
  events (streamMessage JSON_parse
            (Resolved {| ok := true; status := status;
                         body := Some (chunks, e) |})) = omap id outs.
Proof.
  intros Hframes Htail Hcat Hal. simpl.
  rewrite read_loop_events, (for_lines_aligned _ Hal), Hcat.
  rewrite (for_lines_frames _ _ _ Hframes). cbn [fst].
  destruct (for_lines_tail _ Htail) as [-> _]. apply app_nil_r.
Qed.

(** A [data: ] line whose payload [JSON.parse] rejects, wherever it is
    among the lines read and however the chunks are cut, is passed over:
    the run is the run on the lines without it. *)
Lemma malformed_line_passed_over
    (chunks : list jsstring) (e : body_end) (status : N)
    (pre post : list jsstring) (line : jsstring) :
  lines_of chunks = pre ++ line :: post ->
  startsWith line (js "data: ") = true ->
  trim (slice line 6) <> js "[DONE]" ->
  JSON_parse (trim (slice line 6)) = None ->
  let r := streamMessage JSON_parse
             (Resolved {| ok := true; status := status;
                          body := Some (chunks, e) |}) in
  (events r, finish r) = stream_lines (pre ++ post) e.
Proof.
  intros Hlines Hs Hd Hp. simpl.
  rewrite read_loop_lines, Hlines. unfold Api.stream_lines.
  rewrite for_lines_skip by (apply on_line_malformed; assumption).
  reflexivity.
Qed.


(** C8.  Once the generator reads a line whose payload is [[DONE]] it
    returns: it yields the events of the lines before the marker and no
    other, it finishes by [return] whatever the rest of the body holds —
    more lines in the same chunk, more chunks, a failing read —, and it
    reads no further chunk. *)
Theorem streamMessage_stops_at_done
    (cs1 cs2 : list jsstring) (c : jsstring) (e : body_end) (status : N)
    (pre post : list jsstring) (line : jsstring) :
  split LF c = pre ++ line :: post ->
  startsWith line (js "data: ") = true ->
  trim (slice line 6) = js "[DONE]" ->
  let r := streamMessage JSON_parse
             (Resolved {| ok := true; status := status;
                          body := Some (cs1 ++ c :: cs2, e) |}) in
  events r = fst (for_lines (lines_of cs1 ++ pre)) /\
  finish r = Returned /\
  reads r <= S (length cs1).
Proof.
  intros Hc Hs Hd. simpl.
  pose proof (on_line_marker _ Hs Hd) as Hstop.
  assert (Hall : for_lines (lines_of (cs1 ++ c :: cs2)) =
                 (fst (for_lines (lines_of cs1 ++ pre)), true)).
  { rewrite lines_of_app.
    change (lines_of (c :: cs2)) with (split LF c ++ lines_of cs2).
    rewrite Hc, <- !app_assoc, app_assoc. cbn [app].
    apply for_lines_stop, Hstop. }
  split; [|split].
  - rewrite read_loop_events, Hall. reflexivity.
  - rewrite read_loop_finish, Hall. reflexivity.
  - apply read_loop_stop_reads. rewrite Hc, for_lines_stop by exact Hstop.
    reflexivity.
Qed.

End StreamFacts.

(** ** The anonymous quota *)

Section AuthFacts.

Import Auth.

Lemma initial_consistent : consistent initial_state.
Proof. reflexivity. Qed.

(** Whatever the provider does, a state is anonymous exactly when it is
    not authenticated. *)
Lemma step_consistent (w : world) (a : action) :
  consistent (state w) -> consistent (state (step w a)).
Proof.
  unfold consistent. intros H. destruct a as [|server data|server data| |]; simpl.
  - unfold on_mount. destruct (present _); simpl; [reflexivity|exact H].
  - unfold login. simpl. destruct (server _); simpl; [reflexivity|exact H].
  - unfold register. destruct (_ && _); simpl;
      destruct (server _); simpl; first [reflexivity|exact H].
  - reflexivity.
  - unfold incrementMessageCount.
    destruct (AuthState.isAnonymous (state w)) eqn:E; simpl; congruence.
Qed.

Lemma steps_consistent (ls : Storage) (actions : list action) :
  consistent (state (fold_left step actions (World initial_state ls))).
Proof.
  assert (G : forall w, consistent (state w) ->
                        consistent (state (fold_left step actions w))).
  { induction actions as [|a actions IH]; intros w H; simpl; [exact H|].
    apply IH, step_consistent, H. }
  apply G, initial_consistent.
Qed.

(** C3.  [canSendMessage] is true in every authenticated state; in an
    anonymous state it is true exactly when [anonymousMessageCount] is a
    number strictly below the limit of 3. *)
Theorem canSendMessage_spec (s : AuthState) :
  consistent s ->
  (AuthState.isAuthenticated s = true -> canSendMessage s = true) /\
  (AuthState.isAnonymous s = true ->
   (canSendMessage s = true <->
    exists z, AuthState.anonymousMessageCount s = Int z /\ (z < 3)%Z)).
Proof.
  unfold consistent, canSendMessage. intros Hc. split.
  - intros ->. reflexivity.
  - intros Ha. rewrite Ha in Hc.
    destruct (AuthState.isAuthenticated s); [discriminate|].
    destruct (AuthState.anonymousMessageCount s) as [z|]; simpl.
    + unfold ANONYMOUS_MESSAGE_LIMIT. rewrite Z.ltb_lt. split.
      * intros H. exists z. auto.
      * intros (z' & [= <-] & H). exact H.
    + split; [discriminate|]. intros (z & H & _). discriminate.
Qed.

Lemma MAX_SAFE_INTEGER_value : MAX_SAFE_INTEGER = 9007199254740991%Z.
Proof. reflexivity. Qed.


(** The count survives a reload of the page: the provider starts again
    from its initial state and the effect reads the stored count. *)
Lemma count_survives_reload (ls : Storage) (n : nat) :
  n <= 3 ->
  getItem MESSAGE_COUNT_KEY ls = Some (toString (Int (Z.of_nat n))) ->
  getItem Api.ACCESS_TOKEN_KEY ls = None ->
  state (on_mount (World initial_state ls)) =
    AuthState.mk None false true (Int (Z.of_nat n)) false.
Proof.
  intros Hn Hcount Htoken. unfold on_mount, stored_count.
  cbn [localStorage state]. rewrite Htoken, Hcount.
  destruct n as [|[|[|[|n]]]]; [reflexivity..|lia].
Qed.

(** C6.  When [register] resolves, the state is authenticated and not
    anonymous with a count of 0, and neither the message-count key nor the
    session-id key is in [localStorage] any more.  The quota of the
    anonymous identity is retired: sending is allowed, counting a message
    changes nothing, and a later [logout] starts from a count of 0. *)
Theorem register_retires_quota
    (server : Api.backend) (data : RegisterRequest) (w : world) :
  resolved (register server data w) = true ->
  let w' := after (register server data w) in
  AuthState.isAuthenticated (state w') = true /\
  AuthState.isAnonymous (state w') = false /\
  AuthState.anonymousMessageCount (state w') = Int 0 /\
  getItem MESSAGE_COUNT_KEY (localStorage w') = None /\
  getItem SESSION_ID_KEY (localStorage w') = None /\
  canSendMessage (state w') = true /\
  incrementMessageCount w' = w' /\
  AuthState.anonymousMessageCount (state (logout w')) = Int 0.
Proof.
  assert (Hafter : forall response ls u,
            let w' := World (signed_in u)
                        (removeItem SESSION_ID_KEY
                           (removeItem MESSAGE_COUNT_KEY
                              (setItem Api.ACCESS_TOKEN_KEY response ls))) in
            getItem MESSAGE_COUNT_KEY (localStorage w') = None /\
            getItem SESSION_ID_KEY (localStorage w') = None /\
            AuthState.anonymousMessageCount (state (logout w')) = Int 0).
  { intros response ls u. simpl.
    unfold logout, stored_count, Api.logout, getItem, removeItem. simpl.
    rewrite (lookup_delete_ne _ Api.ACCESS_TOKEN_KEY MESSAGE_COUNT_KEY)
      by (vm_compute; discriminate).
    rewrite (lookup_delete_ne _ SESSION_ID_KEY MESSAGE_COUNT_KEY)
      by (vm_compute; discriminate).
    rewrite !lookup_delete_eq. repeat split. }
  unfold register.
  destruct (present (getAnonymousSessionId w) && _); simpl;
    destruct (server _) as [response|]; simpl; try discriminate;
    intros _;
    destruct (Hafter (AuthResponse.access_token response) (localStorage w)
                (AuthResponse.user response)) as (H1 & H2 & H3);
    repeat split; assumption.
Qed.

(** C7.  [register] posts to the promote-anonymous endpoint, with the
    stored anonymous session id, when such an id is stored (a non-empty
    value under the session-id key) and [anonymousMessageCount] is above
    0; in every other case it posts the registration data to the plain
    register endpoint. *)
Theorem register_promotes_exactly_when
    (server : Api.backend) (data : RegisterRequest) (w : world) :
  let promotable sid :=
    getAnonymousSessionId w = Some sid /\ sid <> [] /\
    exists z, AuthState.anonymousMessageCount (state w) = Int z /\ (0 < z)%Z in
  (forall sid, promotable sid ->
     sent (register server data w) =
       Api.PostPromoteAnonymous (RegisterRequest.email data)
         (RegisterRequest.password data) sid) /\
  ((forall sid, ~ promotable sid) ->
     sent (register server data w) = Api.PostRegister data).
Proof.
  simpl. unfold register. split.
  - intros sid (Hs & Hne & z & Hz & Hpos). rewrite Hs, Hz.
    destruct sid as [|c sid]; [congruence|]. simpl.
    apply Z.ltb_lt in Hpos. rewrite Hpos. simpl.
    destruct (server _); reflexivity.
  - intros Hno.
    destruct (present (getAnonymousSessionId w) &&
              number_gtb (AuthState.anonymousMessageCount (state w)) 0) eqn:E.
    + exfalso. apply andb_true_iff in E as [Hp Hg].
      destruct (getAnonymousSessionId w) as [[|c sid]|] eqn:Hs;
        try discriminate.
      destruct (AuthState.anonymousMessageCount (state w)) as [z|] eqn:Hz;
        try discriminate.
      apply (Hno (c :: sid)). repeat split; [discriminate|].
      exists z. split; [reflexivity|]. apply Z.ltb_lt, Hg.
    + simpl. destruct (server _); reflexivity.
Qed.

End AuthFacts.

(** ** The session list *)

Section SessionsFacts.

Import Sessions.

(** C10.  With a list of sessions cached — the delete button is shown
    for the sessions of that list —, [deleteSession] takes the list as
    snapshot and removes the session from the cache before the request
    is sent.  When the request fails, the cache is put back exactly to
    the snapshot, and the list the hook returns and the current session
    are as before; all that has changed is that the query is marked
    for a refetch.  When the request succeeds, the cached list is the
    old one without the deleted session, and the current session is
    cleared if it was the deleted one. *)
Theorem deleteSession_optimistic (sessionId : jsstring)
    (previous : list ChatSession) (st : State) :
  cache st = Some previous ->
  (let '(snapshot, st1) := onMutate sessionId st in
   snapshot = Some previous /\
   cache st1 = Some (List.filter (other_than sessionId) previous) /\
   currentSessionId st1 = currentSessionId st) /\
  (let '(st', resolved) := deleteSession sessionId false st in
   resolved = false /\
   cache st' = Some previous /\
   cache st' = cache st /\
   sessions st' = sessions st /\
   currentSessionId st' = currentSessionId st /\
   invalidated st' = true) /\
  (let '(st', resolved) := deleteSession sessionId true st in
   resolved = true /\
   cache st' = Some (List.filter (other_than sessionId) previous) /\
   (forall s, s ∈ sessions st' <->
              s ∈ previous /\ ChatSession.session_id s <> sessionId) /\
   currentSessionId st' =
     if is_string (currentSessionId st) sessionId then JUndefined
     else currentSessionId st).
Proof.
  intros Hcache.
  assert (Hin : forall s,
            s ∈ List.filter (other_than sessionId) previous <->
            s ∈ previous /\ ChatSession.session_id s <> sessionId).
  { intros s. rewrite !list_elem_of_In, filter_In. unfold other_than.
    rewrite negb_true_iff, str_eqb_neq. reflexivity. }
  unfold deleteSession, onMutate, sessions.
  rewrite Hcache. cbn. split_and!; try reflexivity.
  all: destruct (is_string (currentSessionId st) sessionId); cbn;
    first [reflexivity | exact Hin].
Qed.

End SessionsFacts.

(** ** The chat hook *)

Section ChatFacts.

Import Chat.
Variable ToString : JsValue -> jsstring.
Variable ToNumber_positive : JsValue -> bool.

Local Abbreviation consume := (Chat.consume ToString).
Local Abbreviation sendMessage :=
  (Chat.sendMessage ToString ToNumber_positive).
Local Abbreviation onSuccess := (Chat.onSuccess ToNumber_positive).

(** The loop consumes the events in the order they are yielded and does
    nothing but show the text so far. *)
Lemma consume_shape (evs : list Api.event) (full : jsstring)
    (md : list (jsstring * JsValue)) :
  Forall streaming (consume evs full md).1.1 /\
  omap next_event (consume evs full md).1.1 = evs.
Proof.
  revert full md. induction evs as [|ev evs IH]; intros full md;
    cbn [Chat.consume].
  - split; constructor.
  - destruct (Api.type ev) eqn:Ety.
    + destruct (IH (concat_value ToString full (Api.data ev)) md)
        as [IH1 IH2].
      destruct (consume evs _ md) as [[fs f] m]. cbn [fst] in *. split.
      * repeat constructor. exact IH1.
      * rewrite <- IH2. reflexivity.
    + destruct (IH full (md ++ own_properties (Api.data ev))) as [IH1 IH2].
      destruct (consume evs full _) as [[fs f] m]. cbn [fst] in *. split.
      * repeat constructor. exact IH1.
      * rewrite <- IH2. reflexivity.
Qed.

(** What follows the reply in [onSuccess] and [onError] neither consumes
    an event nor appends a message. *)
Lemma onSuccess_shape (content : jsstring) (sessionId data_sources : JsValue)
    (now : jsstring) :
  exists reply srcs rest,
    onSuccess content sessionId data_sources now =
      AppendMessage reply srcs :: rest /\
    reply = Message.mk assistant
              (match content with
               | [] => js "I apologize, but I encountered an error generating a response."
               | _ => content
               end) now None /\
    Forall (fun f => match f with
                     | Next _ | AppendMessage _ _ => False
                     | _ => True
                     end) rest.
Proof.
  unfold Chat.onSuccess. eexists _, _, _. split; [reflexivity|].
  split; [reflexivity|].
  destruct (truthy sessionId); repeat constructor.
Qed.

(** The effects of a send: three to begin with, the loop, the closing
    ones. *)
Lemma sendMessage_shape (message : jsstring) (sessionId : JsValue)
    (now later : jsstring) (r : Api.run) :
  exists streamed reply srcs rest,
    (sendMessage message sessionId now later r).1 =
      [AppendMessage (Message.mk user message now None) None;
       SetIsStreaming true; SetStreamingContent []]
      ++ streamed ++ AppendMessage reply srcs :: rest /\
    Forall streaming streamed /\
    omap next_event streamed = Api.events r /\
    Forall (fun f => match f with
                     | Next _ | AppendMessage _ _ => False
                     | _ => True
                     end) rest /\
    Message.role reply = assistant /\
    Message.timestamp reply = later /\
    match Api.finish r with
    | Api.Returned =>
        (sendMessage message sessionId now later r).2 = true /\
        Message.content reply =
          match (consume (Api.events r) [] initial_metadata).1.2 with
          | [] => js "I apologize, but I encountered an error generating a response."
          | full => full
          end
    | Api.Threw _ =>
        (sendMessage message sessionId now later r).2 = false /\
        srcs = None /\
        Message.content reply =
          js "I apologize, but I encountered an error. Please try again."
    end.
Proof.
  unfold Chat.sendMessage.
  pose proof (consume_shape (Api.events r) [] initial_metadata) as [H1 H2].
  destruct (consume (Api.events r) [] initial_metadata) as [[fs full] md].
  simpl in H1, H2.
  destruct (Api.finish r) as [|err].
  - destruct (onSuccess_shape full
                (or_value (field (js "session_id") md) sessionId)
                (or_value (field (js "sources") md) (JArray [])) later)
      as (reply & srcs & rest & Heq & Hreply & Hrest).
    exists fs, reply, srcs, rest. cbn [fst snd]. rewrite Heq, <- app_assoc.
    subst reply. repeat split; try assumption; destruct full; reflexivity.
  - eexists fs, _, None, [SetStreamingContent []; SetIsStreaming false].
    cbn [fst snd]. unfold Chat.onError. rewrite <- app_assoc.
    split; [reflexivity|].
    repeat split; try assumption; try reflexivity. repeat constructor.
Qed.

(** The message list after some effects: the messages they append, in
    order, after the ones there were. *)
Lemma messages_run_effects (fs : list effect) (st : State) :
  messages (run_effects st fs) = messages st ++ omap appended fs.
Proof.
  unfold run_effects. revert st.
  induction fs as [|f fs IH]; intros st; simpl.
  - rewrite app_nil_r. reflexivity.
  - rewrite IH. destruct f; simpl; rewrite <- ?app_assoc; reflexivity.
Qed.

Lemma omap_appended_nil (fs : list effect) :
  Forall (fun f => match f with AppendMessage _ _ => False | _ => True end) fs ->
  omap appended fs = [].
Proof.
  induction 1 as [|f fs Hf _ IH]; [reflexivity|].
  destruct f; simpl; first [exact IH|destruct Hf].
Qed.

(** C5 (amended).  In the effects of a send, the first is the append of
    the user message; every stream event is consumed after it and before
    the reply is appended; the reply — the only other message appended —
    comes when the generator has finished and all its events have been
    consumed.  So from the first effect until the reply the message list
    is the old one with the user message, and in the end it is the old
    one with the user message and the reply.  When the generator finished
    by returning (at the marker, or at the end of a body that carried no
    marker), the reply is an assistant message with the whole streamed
    text, or an apology when there was none.  When the generator threw,
    the streamed text is dropped and the reply is an assistant message
    with an error notice. *)
Theorem sendMessage_order (message : jsstring) (sessionId : JsValue)
    (now later : jsstring) (r : Api.run) (st : State) :
  let fs := (sendMessage message sessionId now later r).1 in
  let userMessage := Message.mk user message now None in
  exists k reply srcs,
    fs !! 0 = Some (AppendMessage userMessage None) /\
    fs !! k = Some (AppendMessage reply srcs) /\
    Message.role reply = assistant /\
    (forall i ev, fs !! i = Some (Next ev) -> 0 < i < k) /\
    (forall i m s, fs !! i = Some (AppendMessage m s) -> i = 0 \/ i = k) /\
    omap next_event (take k fs) = Api.events r /\
    (forall i, 0 < i <= k ->
       messages (run_effects st (take i fs)) = messages st ++ [userMessage]) /\
    messages (run_effects st fs) = messages st ++ [userMessage; reply] /\
    match Api.finish r with
    | Api.Returned =>
        (sendMessage message sessionId now later r).2 = true /\
        Message.content reply =
          match (consume (Api.events r) [] initial_metadata).1.2 with
          | [] => js "I apologize, but I encountered an error generating a response."
          | full => full
          end
    | Api.Threw _ =>
        (sendMessage message sessionId now later r).2 = false /\
        srcs = None /\
        Message.content reply =
          js "I apologize, but I encountered an error. Please try again."
    end.
Proof.
  intros fs userMessage.
  destruct (sendMessage_shape message sessionId now later r)
    as (streamed & reply & srcs & rest & Hfs & Hst & Hev & Hrest & Hrole & _ & Hfin).
  fold fs in Hfs. fold userMessage in Hfs.
  exists (3 + length streamed), reply, srcs.
  assert (Hlook : forall i, fs !! (3 + i) =
                    (streamed ++ AppendMessage reply srcs :: rest) !! i).
  { intros i. rewrite Hfs. reflexivity. }
  assert (Hquiet : Forall (fun f => match f with
                                    | AppendMessage _ _ => False
                                    | _ => True
                                    end)
                     ([SetIsStreaming true; SetStreamingContent []] ++ streamed)).
  { apply Forall_app. split; [repeat constructor|].
    eapply Forall_impl; [exact Hst|]. intros [] Hf; try exact I; destruct Hf. }
  assert (Hquiet' : Forall (fun f => match f with
                                     | AppendMessage _ _ => False
                                     | _ => True
                                     end) rest).
  { eapply Forall_impl; [exact Hrest|]. intros [] Hf; try exact I; destruct Hf. }
  split_and!.
  - rewrite Hfs. reflexivity.
  - rewrite Hlook, lookup_app_r by lia.
    replace (length streamed - length streamed) with 0 by lia. reflexivity.
  - exact Hrole.
  - intros i ev H.
    destruct i as [|[|[|i]]]; try (rewrite Hfs in H; discriminate).
    change (S (S (S i))) with (3 + i) in *. rewrite Hlook in H.
    destruct (decide (i < length streamed)) as [Hlt|Hge]; [lia|].
    exfalso. rewrite lookup_app_r in H by lia.
    destruct (i - length streamed) as [|j] eqn:Ej; [discriminate|].
    simpl in H. eapply Forall_lookup_1 in Hrest; [|exact H]. exact Hrest.
  - intros i m s H.
    destruct i as [|[|[|i]]]; try (rewrite Hfs in H; discriminate); [auto|].
    change (S (S (S i))) with (3 + i) in *. rewrite Hlook in H. right.
    destruct (decide (i < length streamed)) as [Hlt|Hge].
    + exfalso. rewrite lookup_app_l in H by lia.
      eapply Forall_lookup_1 in Hst; [|exact H]. exact Hst.
    + rewrite lookup_app_r in H by lia.
      destruct (i - length streamed) as [|j] eqn:Ej; [lia|].
      exfalso. simpl in H.
      eapply Forall_lookup_1 in Hrest; [|exact H]. exact Hrest.
  - rewrite Hfs. change (3 + length streamed) with (S (S (S (length streamed)))).
    simpl. rewrite take_app_length. exact Hev.
  - intros i Hi. rewrite messages_run_effects. f_equal.
    destruct i as [|i]; [lia|].
    replace fs with
      (AppendMessage userMessage None ::
       ([SetIsStreaming true; SetStreamingContent []] ++ streamed) ++
       AppendMessage reply srcs :: rest)
      by (rewrite Hfs, <- app_assoc; reflexivity).
    cbn [take omap appended list_omap]. f_equal.
    rewrite take_app_le by (rewrite length_app; simpl; lia).
    apply omap_appended_nil, Forall_take, Hquiet.
  - rewrite messages_run_effects. f_equal.
    replace fs with
      (AppendMessage userMessage None ::
       ([SetIsStreaming true; SetStreamingContent []] ++ streamed) ++
       AppendMessage reply srcs :: rest)
      by (rewrite Hfs, <- app_assoc; reflexivity).
    cbn [omap appended list_omap]. f_equal.
    rewrite omap_app, (omap_appended_nil _ Hquiet).
    cbn [app omap appended list_omap]. f_equal.
    apply omap_appended_nil, Hquiet'.
  - exact Hfin.
Qed.

Lemma reconstruct_lookup (historyMessages : list Message) (i0 : nat)
    (acc : gmap nat JsValue) (j : nat) :
  reconstruct i0 historyMessages acc !! j =
    match (if decide (i0 <= j)
           then historyMessages !! (j - i0) ≫= recorded_sources
           else None) with
    | Some data_sources => Some data_sources
    | None => acc !! j
    end.
Proof.
  revert i0 acc. induction historyMessages as [|msg rest IH]; intros i0 acc.
  - simpl. destruct (decide (i0 <= j)); reflexivity.
  - cbn [reconstruct]. rewrite IH.
    destruct (decide (S i0 <= j)) as [Hlt|Hge].
    + destruct (decide (i0 <= j)); [|lia].
      replace (j - i0) with (S (j - S i0)) by lia. cbn [lookup list_lookup].
      destruct (rest !! (j - S i0) ≫= recorded_sources); [reflexivity|].
      destruct (Message.sources msg) as [[|[] others]|];
        rewrite ?lookup_insert_ne by lia; reflexivity.
    + destruct (decide (i0 <= j)) as [Hle|Hgt].
      * assert (j = i0) by lia. subst j.
        replace (i0 - i0) with 0 by lia. cbn [lookup list_lookup mbind option_bind].
        unfold recorded_sources.
        destruct (Message.sources msg) as [[|[] others]|];
          rewrite ?lookup_insert_eq; reflexivity.
      * destruct (Message.sources msg) as [[|[] others]|];
          rewrite ?lookup_insert_ne by lia; reflexivity.
Qed.

(** An effect keeps the sources at assistant messages unless it records
    sources with a message of another role. *)
Lemma apply_sources_at_assistants (st : State) (f : effect) :
  (forall m data_sources,
     f = AppendMessage m (Some data_sources) -> Message.role m = assistant) ->
  sources_at_assistants st -> sources_at_assistants (apply st f).
Proof.
  intros Hf Hst.
  destruct f as [m [d|]|b|text|ev| |sid|]; try exact Hst.
  - intros i d' Hi. cbn [apply sources messages] in *.
    rewrite length_app in Hi. simpl in Hi.
    replace (length (messages st) + 1 - 1) with (length (messages st)) in Hi
      by lia.
    destruct (decide (i = length (messages st))) as [->|Hne].
    + exists m. split; [|eapply Hf; reflexivity].
      rewrite lookup_app_r by lia.
      replace (length (messages st) - length (messages st)) with 0 by lia.
      reflexivity.
    + rewrite lookup_insert_ne in Hi by congruence.
      destruct (Hst _ _ Hi) as (m' & Hm' & Hr). exists m'. split; [|exact Hr].
      apply lookup_app_l_Some, Hm'.
  - intros i d' Hi. cbn [apply sources messages] in *.
    destruct (Hst _ _ Hi) as (m' & Hm' & Hr). exists m'. split; [|exact Hr].
    apply lookup_app_l_Some, Hm'.
Qed.

Lemma run_effects_sources_at_assistants (fs : list effect) (st : State) :
  Forall (fun f => forall m data_sources,
            f = AppendMessage m (Some data_sources) ->
            Message.role m = assistant) fs ->
  sources_at_assistants st -> sources_at_assistants (run_effects st fs).
Proof.
  unfold run_effects. intros H. revert st.
  induction H as [|f fs Hf _ IH]; intros st Hst; simpl; [exact Hst|].
  apply IH, apply_sources_at_assistants; assumption.
Qed.

(** Effects that record no sources leave the recorded sources as they
    are. *)
Lemma sources_run_effects_quiet (fs : list effect) (st : State) :
  Forall (fun f => match f with
                   | AppendMessage _ (Some _) => False
                   | _ => True
                   end) fs ->
  sources (run_effects st fs) = sources st.
Proof.
  unfold run_effects. intros H. revert st.
  induction H as [|f fs Hf _ IH]; intros st; simpl; [reflexivity|].
  rewrite IH. destruct f as [m [d|]| | | | | |]; first [reflexivity|destruct Hf].
Qed.

(** A send records sources at the index of the reply it appends and
    nowhere else. *)
Lemma sendMessage_records_at_reply (st : State) (message : jsstring)
    (sessionId : JsValue) (now later : jsstring) (r : Api.run) :
  let st' := run_effects st (sendMessage message sessionId now later r).1 in
  (exists reply,
     messages st' !! S (length (messages st)) = Some reply /\
     Message.role reply = assistant) /\
  (forall j, j <> S (length (messages st)) ->
             sources st' !! j = sources st !! j).
Proof.
  destruct (sendMessage_shape message sessionId now later r)
    as (streamed & reply & srcs' & rest & Heq & Hst & _ & Hrest & Hrole & _).
  cbv zeta. rewrite Heq. split.
  - exists reply. split; [|exact Hrole].
    rewrite messages_run_effects, !omap_app.
    rewrite (omap_appended_nil streamed)
      by (eapply Forall_impl; [exact Hst|]; intros [] Hf; cbn in *; first [exact I|destruct Hf]).
    cbn [omap appended app list_omap].
    rewrite (omap_appended_nil rest)
      by (eapply Forall_impl; [exact Hrest|]; intros [] Hf; cbn in *; first [exact I|destruct Hf]).
    rewrite lookup_app_r by lia.
    replace (S (length (messages st)) - length (messages st)) with 1 by lia.
    reflexivity.
  - intros j Hj. unfold run_effects.
    rewrite app_assoc, fold_left_app. cbn [fold_left].
    fold (run_effects st
            ([AppendMessage (Message.mk user message now None) None;
              SetIsStreaming true; SetStreamingContent []] ++ streamed)).
    set (st1 := run_effects st _).
    fold (run_effects (apply st1 (AppendMessage reply srcs')) rest).
    rewrite sources_run_effects_quiet
      by (eapply Forall_impl; [exact Hrest|]; intros [] Hf; cbn in *; first [exact I|destruct Hf]).
    assert (Hs1 : sources st1 = sources st).
    { apply sources_run_effects_quiet. repeat (constructor; [exact I|]).
      eapply Forall_impl; [exact Hst|]. intros [] Hf; cbn in *; first [exact I|destruct Hf]. }
    assert (Hm1 : length (messages st1) = S (length (messages st))).
    { unfold st1. rewrite messages_run_effects, omap_app.
      rewrite (omap_appended_nil streamed)
        by (eapply Forall_impl; [exact Hst|]; intros [] Hf; cbn in *; first [exact I|destruct Hf]).
      cbn [omap appended app list_omap]. rewrite length_app. simpl. lia. }
    cbn [apply sources]. destruct srcs' as [d|]; [|rewrite Hs1; reflexivity].
    rewrite length_app, Hm1. cbn [length].
    rewrite lookup_insert_ne by lia. rewrite Hs1. reflexivity.
Qed.

(** C9 (amended).  [ChatMessage] renders a sources panel exactly when the
    role of the message is not [user].  A send records sources, if any,
    at the index of the assistant message it appends and nowhere else, so
    it keeps the recorded sources at assistant messages.  Rebuilding from
    a history records at index [i] the sources of the message at [i] when
    they are a non-empty list of full objects, and nothing for an empty or
    a legacy list of ids — whatever the role of that message. *)
Theorem sources_attached
    (m : Message) (srcs : option JsValue) (isStreaming : bool)
    (st : State) (message : jsstring) (sessionId : JsValue)
    (now later : jsstring) (r : Api.run)
    (historyMessages : list Message) (i : nat) :
  (is_Some (ChatMessage.sourcesDisplay
              (ChatMessage.ChatMessage m srcs isStreaming))
   <-> Message.role m <> user) /\
  (sources_at_assistants st ->
   sources_at_assistants
     (run_effects st (sendMessage message sessionId now later r).1)) /\
  sources (setMessagesFromHistory historyMessages st) !! i
    = historyMessages !! i ≫= recorded_sources /\
  messages (setMessagesFromHistory historyMessages st) = historyMessages /\
  (let st' := run_effects st (sendMessage message sessionId now later r).1 in
   (exists reply,
      messages st' !! S (length (messages st)) = Some reply /\
      Message.role reply = assistant) /\
   (forall j, j <> S (length (messages st)) ->
              sources st' !! j = sources st !! j)).
Proof.
  split_and!; [| | | |apply sendMessage_records_at_reply].
  - unfold ChatMessage.ChatMessage, ChatMessage.isUser. simpl.
    destruct (Message.role m); simpl; split;
      try congruence; try (intros [x Hx]; discriminate); eauto.
  - apply run_effects_sources_at_assistants.
    destruct (sendMessage_shape message sessionId now later r)
      as (streamed & reply & srcs' & rest & -> & Hst & _ & Hrest & Hrole & _).
    repeat (apply Forall_cons; split); try (intros ? ? [=]).
    apply Forall_app. split.
    + eapply Forall_impl; [exact Hst|]. intros [] Hf ? ? [=]; destruct Hf.
    + apply Forall_cons. split; [intros ? ? [= <- _]; exact Hrole|].
      eapply Forall_impl; [exact Hrest|]. intros [] Hf ? ? [=]; destruct Hf.
  - unfold setMessagesFromHistory. cbn [sources].
    rewrite reconstruct_lookup. destruct (decide (0 <= i)); [|lia].
    rewrite Nat.sub_0_r.
    destruct (historyMessages !! i ≫= recorded_sources); [reflexivity|].
    apply lookup_empty.
  - reflexivity.
Qed.

End ChatFacts.

(** ** Sending from the page *)

Section PageFacts.

Import Page.
Variable JSON_parse : jsstring -> option JsValue.
Variable ToString : JsValue -> jsstring.
Variable ToNumber_positive : JsValue -> bool.

Local Abbreviation handleSendMessage :=
  (Page.handleSendMessage JSON_parse ToString ToNumber_positive).
Local Abbreviation handle_sends :=
  (Page.handle_sends JSON_parse ToString ToNumber_positive).

(** Of all the effects of a send, only [onMessageSent] touches the
    provider. *)
Lemma callback_auth (fs : list Chat.effect) (p : State) :
  auth (fold_left callback fs p) =
    fold_left (fun w f => match f with
                          | Chat.OnMessageSent => Auth.incrementMessageCount w
                          | _ => w
                          end) fs (auth p).
Proof.
  revert p. induction fs as [|f fs IH]; intros p; simpl; [reflexivity|].
  rewrite IH. destruct f; reflexivity.
Qed.

Lemma quiet_effects (fs : list Chat.effect) (w : Auth.world) :
  Forall (fun f => f <> Chat.OnMessageSent) fs ->
  fold_left (fun w f => match f with
                        | Chat.OnMessageSent => Auth.incrementMessageCount w
                        | _ => w
                        end) fs w = w.
Proof.
  intros H. revert w. induction H as [|f fs Hf _ IH]; intros w; simpl.
  - reflexivity.
  - rewrite IH. destruct f; try reflexivity. congruence.
Qed.

(** A send counts a message exactly when it passed the gate and its
    stream ran to the end. *)
Lemma handleSendMessage_auth (content now later : jsstring)
    (f : Api.fetched) (p : State) :
  auth (handleSendMessage content now later f p).1 =
    match (handleSendMessage content now later f p).2 with
    | Completed => Auth.incrementMessageCount (auth p)
    | _ => auth p
    end /\
  ((handleSendMessage content now later f p).2 = Completed ->
   Auth.canSendMessage (Auth.state (auth p)) = true).
Proof.
  unfold Page.handleSendMessage.
  destruct (Auth.canSendMessage (Auth.state (auth p))); simpl;
    [|split; [reflexivity|discriminate]].
  split; [|reflexivity].
  unfold Chat.sendMessage.
  pose proof (consume_shape ToString
                (Api.events (Api.streamMessage JSON_parse f)) []
                (Chat.initial_metadata)) as [Hst _].
  destruct (Chat.consume ToString _ [] Chat.initial_metadata)
    as [[fs full] md].
  cbn [fst] in Hst.
  assert (Hquiet : Forall (fun f => f <> Chat.OnMessageSent) fs).
  { eapply Forall_impl; [exact Hst|]. intros [] H; try destruct H; discriminate. }
  destruct (Api.finish (Api.streamMessage JSON_parse f)); cbn [fst snd];
    rewrite callback_auth, !fold_left_app; cbn [fold_left];
    rewrite (quiet_effects fs) by exact Hquiet.
  - unfold Chat.onSuccess. rewrite !fold_left_app. cbn [fold_left].
    destruct (truthy _); reflexivity.
  - reflexivity.
Qed.


End PageFacts.


(** ** The properties on the sample data *)

(** A frame checked by evaluation. *)
Lemma well_formed_frame_intro (payload : jsstring) (parsed : JsValue)
    (ev : Api.event) :
  bool_decide (LF ∉ payload) = true ->
  str_eqb (trim payload) (js "[DONE]") = false ->
  JSON.parse (trim payload) = Some parsed ->
  Api.frame_event parsed ev ->
  Api.well_formed_frame JSON.parse payload ev.
Proof.
  intros H1 H2 H3 H4. split_and!.
  - apply bool_decide_eq_true in H1. exact H1.
  - apply str_eqb_neq, H2.
  - exists parsed. split; assumption.
Qed.

Lemma sent_frame_intro (payload : jsstring) (parsed : JsValue)
    (out : option Api.event) :
  bool_decide (LF ∉ payload) = true ->
  str_eqb (trim payload) (js "[DONE]") = false ->
  JSON.parse (trim payload) = Some parsed ->
  Api.frame_output parsed out ->
  Api.sent_frame JSON.parse payload out.
Proof.
  intros H1 H2 H3 H4. split_and!.
  - apply bool_decide_eq_true in H1. exact H1.
  - apply str_eqb_neq, H2.
  - exists parsed. split; assumption.
Qed.


Ltac frame_by ctor :=
  eapply well_formed_frame_intro; [vm_compute; reflexivity..|];
  match goal with
  | |- Api.frame_event (JObject ?fs) _ => apply (ctor fs); reflexivity
  end.

(** A frame with the event the constructor [ctor] gives it. *)
Ltac sent_by ctor :=
  eapply sent_frame_intro; [vm_compute; reflexivity..|];
  match goal with
  | |- Api.frame_output (JObject ?fs) (Some _) =>
      apply (ctor fs); first [reflexivity | left; reflexivity
                             | right; split; reflexivity]
  end.

(** A frame without an event: none of the four kinds. *)
Ltac sent_silent :=
  eapply sent_frame_intro; [vm_compute; reflexivity..|];
  let ev := fresh "ev" in
  let H := fresh "H" in
  intros ev H; inversion H; discriminate.

Ltac ends_with_line_feed :=
  match goal with
  | |- _ \/ (exists a, ?c = a ++ [LF]) =>
      right; exists (removelast c); vm_compute; reflexivity
  end.

Lemma sample_frames :
  Forall2 (Api.sent_frame JSON.parse)
          Sample.mixed_payloads Sample.mixed_outputs.
Proof.
  unfold Sample.mixed_payloads, Sample.mixed_outputs.
  constructor; [|constructor; [|constructor; [|constructor;
    [|constructor; [|constructor; [|constructor; [|constructor]]]]]]].
  - sent_by Api.fe_content.
  - sent_silent.
  - sent_by Api.fe_content.
  - sent_silent.
  - sent_by Api.fe_sources.
  - sent_by Api.fe_session.
  - sent_by Api.fe_metadata.
Qed.

(** A stream with frames of every kind, in chunks that end at line
    breaks, gives the five events of the frames that have one: the
    content frame without text and the frame [null] give none, the
    content frame without text that carries the session id is relayed as
    metadata. *)
Lemma streamMessage_line_aligned_frames_witness :
  Api.events (Api.streamMessage JSON.parse
                (Sample.ok_response Sample.mixed_chunks Api.EndOfBody))
    = [Api.Event Api.content (JString (js "Hel"));
       Api.Event Api.content (JString (js "lo"));
       Api.Event Api.metadata
         (JObject [(js "sources", JArray [Sample.source_faq1])]);
       Api.Event Api.metadata
         (JObject [(js "type", JString (js "content"));
                   (js "data", JString []);
                   (js "session_id", JString (js "s-1"))]);
       Api.Event Api.metadata
         (JObject [(js "type", JString (js "metadata"));
                   (js "session_id", JString (js "s-1"))])].
Proof.
  apply (streamMessage_line_aligned_frames JSON.parse
           Sample.mixed_payloads Sample.mixed_outputs
           (Api.sse_frame (js "[DONE]")) Sample.mixed_chunks
           Api.EndOfBody 200).
  - exact sample_frames.
  - right. exists []. vm_compute. reflexivity.
  - vm_compute. reflexivity.
  - unfold Sample.mixed_chunks.
    split; [ends_with_line_feed|].
    split; [left; reflexivity|].
    split; [ends_with_line_feed|].
    split; [ends_with_line_feed|].
    exact I.
Defined.

(** C1, as stated, fails.  The stream of one content frame, delivered in
    two chunks that cut the frame after its fifteenth code unit, yields no
    event, although the frame is well formed (the frame is ASCII: its
    code units are its bytes); and a content frame with an empty text
    yields no event however it is delivered. *)
Lemma streamMessage_cut_frame_lost :
  ~ (forall (payloads chunks : list jsstring) (evs : list Api.event),
       Forall2 (Api.well_formed_frame JSON.parse) payloads evs ->
       concat chunks = concat (map Api.sse_frame payloads) ->
       Api.events (Api.streamMessage JSON.parse
                     (Sample.ok_response chunks Api.EndOfBody)) = evs) /\
  Api.events (Api.streamMessage JSON.parse
                (Sample.ok_response [Api.sse_frame Sample.empty_delta]
                   Api.EndOfBody)) = [].
Proof.
  split; [|vm_compute; reflexivity].
  intros H.
  specialize (H [Sample.hello]
                [take 15 (Api.sse_frame Sample.hello);
                 drop 15 (Api.sse_frame Sample.hello)]
                [Api.Event Api.content (JString (js "Hello"))]).
  assert (Hframe : Forall2 (Api.well_formed_frame JSON.parse) [Sample.hello]
                     [Api.Event Api.content (JString (js "Hello"))]).
  { constructor; [|constructor]. frame_by Api.fe_content. }
  specialize (H Hframe eq_refl). vm_compute in H. discriminate.
Qed.



(** The marker in the middle of a chunk: the frame after it and the next
    chunk are not read, the failing read is never reached. *)
Lemma streamMessage_stops_at_done_witness :
  let r := Api.streamMessage JSON.parse
             (Sample.ok_response
                [Api.sse_frame Sample.hel;
                 Api.sse_frame Sample.lo ++ Api.sse_frame (js "[DONE]") ++
                 Api.sse_frame Sample.hello;
                 Api.sse_frame Sample.hello] Api.ReadRejects) in
  Api.events r =
    (Api.for_lines JSON.parse
       (Api.lines_of [Api.sse_frame Sample.hel] ++
        [js "data: " ++ Sample.lo; []])).1 /\
  Api.finish r = Api.Returned /\
  Api.reads r <= 2.
Proof.
  apply (streamMessage_stops_at_done JSON.parse
           [Api.sse_frame Sample.hel] [Api.sse_frame Sample.hello]
           (Api.sse_frame Sample.lo ++ Api.sse_frame (js "[DONE]") ++
            Api.sse_frame Sample.hello)
           Api.ReadRejects 200
           [js "data: " ++ Sample.lo; []]
           [[]; js "data: " ++ Sample.hello; []; []]
           (js "data: [DONE]")).
  - vm_compute. reflexivity.
  - vm_compute. reflexivity.
  - vm_compute. reflexivity.
Defined.

(** A visitor with two messages may send a third. *)
Lemma canSendMessage_spec_witness :
  (AuthState.isAuthenticated (Auth.state Sample.visitor) = true ->
   Auth.canSendMessage (Auth.state Sample.visitor) = true) /\
  (AuthState.isAnonymous (Auth.state Sample.visitor) = true ->
   (Auth.canSendMessage (Auth.state Sample.visitor) = true <->
    exists z, AuthState.anonymousMessageCount (Auth.state Sample.visitor)
              = Int z /\ (z < 3)%Z)).
Proof.
  apply (canSendMessage_spec (Auth.state Sample.visitor)). reflexivity.
Defined.


(** The visitor registers: promoted, and the quota gone. *)
Lemma register_retires_quota_witness :
  let w' := Auth.after (Auth.register Sample.accepting Sample.new_user
                          Sample.visitor) in
  AuthState.isAuthenticated (Auth.state w') = true /\
  AuthState.isAnonymous (Auth.state w') = false /\
  AuthState.anonymousMessageCount (Auth.state w') = Int 0 /\
  getItem Auth.MESSAGE_COUNT_KEY (Auth.localStorage w') = None /\
  getItem Auth.SESSION_ID_KEY (Auth.localStorage w') = None /\
  Auth.canSendMessage (Auth.state w') = true /\
  Auth.incrementMessageCount w' = w' /\
  AuthState.anonymousMessageCount (Auth.state (Auth.logout w')) = Int 0.
Proof.
  apply (register_retires_quota Sample.accepting Sample.new_user
           Sample.visitor).
  reflexivity.
Defined.

Example register_promotes_visitor :
  Auth.sent (Auth.register Sample.accepting Sample.new_user Sample.visitor)
    = Api.PostPromoteAnonymous (js "ana@example.com") (js "secret") (js "s-1").
Proof. reflexivity. Qed.

Example register_plain_without_messages :
  Auth.sent (Auth.register Sample.accepting Sample.new_user
               (Auth.World Auth.initial_state
                  (setItem Auth.SESSION_ID_KEY (js "s-1") ∅)))
    = Api.PostRegister Sample.new_user.
Proof. reflexivity. Qed.

Example quota_gate :
  Auth.canSendMessage (AuthState.mk None false true (Int 2) false) = true /\
  Auth.canSendMessage (AuthState.mk None false true (Int 3) false) = false /\
  Auth.canSendMessage (AuthState.mk None false true NaN false) = false /\
  Auth.canSendMessage (Auth.signed_in (User.mk [] [] [])) = true.
Proof. repeat split. Qed.

Example stored_count_read_back :
  parseInt (toString (Int 3)) = Int 3 /\
  parseInt (js " 12px") = Int 12 /\
  parseInt (js "-7") = Int (-7) /\
  parseInt (js "abc") = NaN /\
  Auth.stored_count ∅ = Int 0.
Proof. repeat split. Qed.

(** [null] parses, reading its [type] throws, the [catch] skips the line;
    a frame of an unknown type yields nothing; a frame with a top-level
    [session_id] is relayed as metadata whatever its type. *)
Example lines_without_event :
  Api.on_line JSON.parse (js "data: null") = Api.Skip /\
  Api.on_line JSON.parse (jsq "data: {'type':'error','data':'boom'}")
    = Api.Skip /\
  Api.on_line JSON.parse (js "event: ping") = Api.Skip /\
  Api.on_line JSON.parse (js "data:[DONE]") = Api.Skip /\
  Api.on_line JSON.parse (js "data:  [DONE] ") = Api.Stop /\
  Api.on_line JSON.parse (jsq "data: {'session_id':'s-1'}")
    = Api.Yield (Api.Event Api.metadata
                   (JObject [(js "session_id", JString (js "s-1"))])).
Proof. vm_compute. repeat split. Qed.

(** C5, as stated, fails.  A body that ends after one content frame, with
    no metadata frame and no end-of-stream marker, leaves the generator
    returning at the end of the body; the send resolves and the text so
    far is appended as the assistant's message. *)
Lemma reply_without_terminal_event :
  let chunks := [Api.sse_frame Sample.hel] in
  let r := Api.streamMessage JSON.parse
             (Sample.ok_response chunks Api.EndOfBody) in
  let sending := Chat.sendMessage Sample.ToString Sample.ToNumber_positive
                   (js "What are the fees?") JUndefined
                   (js "09:00") (js "09:01") r in
  (Api.for_lines JSON.parse (Api.lines_of chunks)).2 = false /\
  Api.events r = [Api.Event Api.content (JString (js "Hel"))] /\
  sending.2 = true /\
  Chat.messages (Chat.run_effects Chat.initial sending.1) =
    [Message.mk user (js "What are the fees?") (js "09:00") None;
     Message.mk assistant (js "Hel") (js "09:01") None].
Proof. vm_compute. repeat split. Qed.

(** C9, as stated, fails.  Rebuilding from a history whose user message
    carries full sources records them at the index of that user message;
    the legacy list of the assistant message is skipped. *)
Lemma history_sources_at_user_message :
  let st := Chat.setMessagesFromHistory Sample.history Chat.initial in
  Chat.sources st !! 0 = Some (JArray [Sample.source_faq1]) /\
  Message.role <$> Chat.messages st !! 0 = Some user /\
  Chat.sources st !! 1 = None /\
  ~ Chat.sources_at_assistants st.
Proof.
  assert (H0 : Chat.sources
                 (Chat.setMessagesFromHistory Sample.history Chat.initial)
               !! 0 = Some (JArray [Sample.source_faq1])).
  { unfold Chat.setMessagesFromHistory. cbn [Chat.sources].
    rewrite reconstruct_lookup. reflexivity. }
  assert (H1 : Chat.sources
                 (Chat.setMessagesFromHistory Sample.history Chat.initial)
               !! 1 = None).
  { unfold Chat.setMessagesFromHistory. cbn [Chat.sources].
    rewrite reconstruct_lookup. reflexivity. }
  cbv zeta. split_and!.
  - exact H0.
  - reflexivity.
  - exact H1.
  - intros H. destruct (H 0 _ H0) as (m & Hm & Hr).
    simpl in Hm. injection Hm as <-. discriminate Hr.
Qed.

(** Two sessions cached, the first of them current: a failed and a
    successful delete of it. *)
Lemma deleteSession_optimistic_witness :
  let s1 := ChatSession.mk (js "s-1") None None (js "09:00") (js "09:01") 2 in
  let s2 := ChatSession.mk (js "s-2") None None (js "09:02") (js "09:03") 4 in
  let st := Sessions.mkState (Some [s1; s2]) false (JString (js "s-1")) in
  Sessions.cache (Sessions.deleteSession (js "s-1") false st).1
    = Some [s1; s2] /\
  Sessions.currentSessionId (Sessions.deleteSession (js "s-1") false st).1
    = JString (js "s-1") /\
  Sessions.cache (Sessions.deleteSession (js "s-1") true st).1 = Some [s2] /\
  Sessions.currentSessionId (Sessions.deleteSession (js "s-1") true st).1
    = JUndefined.
Proof.
  intros s1 s2 st.
  destruct (deleteSession_optimistic (js "s-1") [s1; s2] st eq_refl)
    as (_ & Hfail & Hok).
  destruct (Sessions.deleteSession (js "s-1") false st) as [st1 r1].
  destruct (Sessions.deleteSession (js "s-1") true st) as [st2 r2].
  destruct Hfail as (_ & Hc1 & _ & _ & Hcur1 & _).
  destruct Hok as (_ & Hc2 & _ & Hcur2).
  split_and!.
  - exact Hc1.
  - exact Hcur1.
  - exact Hc2.
  - exact Hcur2.
Defined.

Example deleteSession_failure_restores :
  let s1 := ChatSession.mk (js "s-1") None None (js "09:00") (js "09:01") 2 in
  let s2 := ChatSession.mk (js "s-2") None None (js "09:02") (js "09:03") 4 in
  let st := Sessions.mkState (Some [s1; s2]) false (JString (js "s-1")) in
  Sessions.deleteSession (js "s-1") false st
    = (Sessions.mkState (Some [s1; s2]) true (JString (js "s-1")), false) /\
  Sessions.deleteSession (js "s-1") true st
    = (Sessions.mkState (Some [s2]) true JUndefined, true).
Proof. split; reflexivity. Qed.

(** * Further properties *)

(** ** Trimming *)

Lemma trimStart_head (s : jsstring) :
  trimStart s = [] \/
  exists c t, trimStart s = c :: t /\ is_js_whitespace c = false.
Proof.
  induction s as [|c s IH]; simpl; [left; reflexivity|].
  destruct (is_js_whitespace c) eqn:E; [exact IH|].
  right. exists c, s. auto.
Qed.

Lemma trimStart_fixed (c : N) (s : jsstring) :
  is_js_whitespace c = false -> trimStart (c :: s) = c :: s.
Proof. intros H. simpl. rewrite H. reflexivity. Qed.

Lemma trimStart_snoc (s : jsstring) (c : N) :
  is_js_whitespace c = false ->
  exists t, trimStart (s ++ [c]) = t ++ [c].
Proof.
  intros Hc. induction s as [|x s IH]; simpl.
  - rewrite Hc. exists []. reflexivity.
  - destruct (is_js_whitespace x); [exact IH|].
    exists (x :: s). reflexivity.
Qed.

(** Dropping white space at the front drops it all when there is nothing
    else. *)
Lemma trimStart_app_whitespace (ws s : jsstring) :
  forallb is_js_whitespace ws = true -> trimStart (ws ++ s) = trimStart s.
Proof.
  induction ws as [|c ws IH]; simpl; [reflexivity|].
  intros H. apply andb_true_iff in H as [Hc Hws]. rewrite Hc. auto.
Qed.

(** What [trim] returns is empty, or begins and ends with a character
    that is not white space. *)
Lemma trim_shape (s : jsstring) :
  trim s = [] \/
  (exists c m, trim s = c :: m /\ is_js_whitespace c = false) /\
  (exists m d, trim s = m ++ [d] /\ is_js_whitespace d = false).
Proof.
  unfold trim.
  destruct (trimStart_head s) as [->|(c & t & Ht & Hc)]; [left; reflexivity|].
  rewrite Ht. right. change (rev (c :: t)) with (rev t ++ [c]).
  destruct (trimStart_snoc (rev t) c Hc) as [u Hu].
  destruct (trimStart_head (rev t ++ [c])) as [E|(d & v & Hv & Hd)].
  { rewrite Hu in E. destruct u; discriminate. }
  split.
  - exists c, (rev u). rewrite Hu, rev_app_distr. auto.
  - exists (rev v), d. rewrite Hv. auto.
Qed.

Lemma trim_fixed (s : jsstring) :
  (exists c m, s = c :: m /\ is_js_whitespace c = false) ->
  (exists m d, s = m ++ [d] /\ is_js_whitespace d = false) ->
  trim s = s.
Proof.
  intros (c & m & Hs & Hc) (m' & d & Hs' & Hd). unfold trim.
  rewrite Hs at 1. rewrite (trimStart_fixed c m Hc), <- Hs, Hs'.
  rewrite rev_app_distr. simpl. rewrite Hd. simpl.
  rewrite rev_involutive. reflexivity.
Qed.

(** Trimming twice is trimming once. *)
Lemma trim_idempotent (s : jsstring) : trim (trim s) = trim s.
Proof.
  destruct (trim_shape s) as [->|[H1 H2]]; [reflexivity|].
  apply trim_fixed; assumption.
Qed.

Lemma trimStart_whitespace (ws : jsstring) :
  forallb is_js_whitespace ws = true -> trimStart ws = [].
Proof.
  intros H. rewrite <- (app_nil_r ws).
  rewrite (trimStart_app_whitespace ws [] H). reflexivity.
Qed.

Lemma trimStart_app (s t : jsstring) :
  trimStart s <> [] -> trimStart (s ++ t) = trimStart s ++ t.
Proof.
  induction s as [|c s IH]; simpl; [congruence|].
  destruct (is_js_whitespace c); [exact IH|reflexivity].
Qed.

Lemma forallb_rev_whitespace (ws : jsstring) :
  forallb is_js_whitespace ws = true ->
  forallb is_js_whitespace (rev ws) = true.
Proof.
  rewrite !forallb_forall. intros H x Hx. apply H, in_rev, Hx.
Qed.

(** White space on either side is trimmed away. *)
Lemma trim_whitespace_around (before s after : jsstring) :
  forallb is_js_whitespace before = true ->
  forallb is_js_whitespace after = true ->
  trim (before ++ s ++ after) = trim s.
Proof.
  intros Hb Ha. unfold trim. rewrite (trimStart_app_whitespace _ _ Hb).
  destruct (trimStart s) as [|c t] eqn:E.
  - assert (Hs : trimStart (s ++ after) = []).
    { clear Hb. induction s as [|x s IH]; simpl in *.
      - apply trimStart_whitespace, Ha.
      - destruct (is_js_whitespace x); [auto|discriminate]. }
    rewrite Hs. reflexivity.
  - rewrite trimStart_app by (rewrite E; discriminate).
    rewrite E, rev_app_distr.
    rewrite (trimStart_app_whitespace _ _ (forallb_rev_whitespace _ Ha)).
    reflexivity.
Qed.

(** ** More on the stream generator *)

Section StreamMore.

Import Api.
Variable JSON_parse : jsstring -> option JsValue.

Local Abbreviation on_line := (Api.on_line JSON_parse).
Local Abbreviation for_lines := (Api.for_lines JSON_parse).
Local Abbreviation read_loop := (Api.read_loop JSON_parse).
Local Abbreviation streamMessage := (Api.streamMessage JSON_parse).

(** What has been yielded is not taken back: with more chunks in the
    body, and whatever way the body ends, the generator yields the same
    events first. *)
Theorem streamMessage_events_extend
    (chunks more : list jsstring) (e e' : body_end) (status : N) :
  events (streamMessage
            (Resolved {| ok := true; status := status;
                         body := Some (chunks, e) |}))
  `prefix_of`
  events (streamMessage
            (Resolved {| ok := true; status := status;
                         body := Some (chunks ++ more, e') |})).
Proof.
  simpl. rewrite !read_loop_events, lines_of_app, for_lines_app.
  destruct (for_lines (lines_of chunks)) as [evs [|]]; simpl.
  - reflexivity.
  - apply prefix_app_r. reflexivity.
Qed.

Lemma classify_shape (parsed : JsValue) (ev : event) :
  classify parsed = Yield ev ->
  (type ev = content /\ truthy (data ev) = true) \/
  (type ev = metadata /\ exists fs, data ev = JObject fs).
Proof.
  unfold classify.
  destruct parsed as [| |b|neg m e|s|items|fs];
    try (simpl; discriminate). cbn [get_prop].
  destruct (is_string (field (js "type") fs) (js "content") &&
            truthy (field (js "data") fs)) eqn:E1.
  { intros [= <-]. left. apply andb_true_iff in E1 as [_ E1]. auto. }
  destruct (is_string (field (js "type") fs) (js "sources") &&
            truthy (field (js "data") fs)) eqn:E2.
  { intros [= <-]. right. simpl. eauto. }
  destruct (is_string (field (js "type") fs) (js "metadata") ||
            truthy (field (js "session_id") fs)); [|discriminate].
  intros [= <-]. right. simpl. eauto.
Qed.

Lemma on_line_shape (line : jsstring) (ev : event) :
  on_line line = Yield ev ->
  (type ev = content /\ truthy (data ev) = true) \/
  (type ev = metadata /\ exists fs, data ev = JObject fs).
Proof.
  unfold Api.on_line.
  destruct (_ && _); [|discriminate].
  destruct (str_eqb _ _); [discriminate|].
  destruct (JSON_parse _); [apply classify_shape|discriminate].
Qed.

Lemma for_lines_shape (lines : list jsstring) :
  Forall (fun ev =>
            (type ev = content /\ truthy (data ev) = true) \/
            (type ev = metadata /\ exists fs, data ev = JObject fs))
         (for_lines lines).1.
Proof.
  induction lines as [|line lines IH]; simpl; [constructor|].
  destruct (on_line line) as [|ev|] eqn:E; [exact IH| |constructor].
  destruct (for_lines lines) as [evs stopped]. simpl in *.
  constructor; [apply (on_line_shape _ _ E)|exact IH].
Qed.

(** Whatever [fetch] gives and whatever [JSON.parse] accepts, an event
    the generator yields is a content event whose data is truthy, or a
    metadata event whose data is an object. *)
Theorem streamMessage_event_shapes (f : fetched) :
  Forall (fun ev =>
            (type ev = content /\ truthy (data ev) = true) \/
            (type ev = metadata /\ exists fs, data ev = JObject fs))
         (events (streamMessage f)).
Proof.
  destruct f as [|response]; simpl; [constructor|].
  destruct (negb (ok response)); [constructor|].
  destruct (body response) as [[chunks e]|]; [|constructor].
  rewrite read_loop_events. apply for_lines_shape.
Qed.

(** The generator throws in four cases and no other: [fetch] rejects; the
    response is not ok; there is no body; a read of the body rejects
    before a line with the marker was reached. *)
Theorem streamMessage_throws_iff (f : fetched) (err : error) :
  finish (streamMessage f) = Threw err <->
  (f = Rejected /\ err = FetchFailed) \/
  (exists response, f = Resolved response /\ ok response = false /\
                    err = HttpError (status response)) \/
  (exists response, f = Resolved response /\ ok response = true /\
                    body response = None /\ err = NoResponseBody) \/
  (exists response chunks,
     f = Resolved response /\ ok response = true /\
     body response = Some (chunks, ReadRejects) /\
     (for_lines (lines_of chunks)).2 = false /\ err = ReadFailed).
Proof.
  split.
  - destruct f as [|response]; simpl.
    { intros [= <-]. auto. }
    destruct (ok response) eqn:Hok; simpl.
    + destruct (body response) as [[chunks e]|] eqn:Hb.
      * rewrite read_loop_finish.
        destruct (for_lines (lines_of chunks)).2 eqn:Hs; [discriminate|].
        destruct e; [discriminate|]. intros [= <-].
        right. right. right. exists response, chunks. auto.
      * intros [= <-]. right. right. left. exists response. auto.
    + intros [= <-]. right. left. exists response. auto.
  - intros [[-> ->]|[(r & -> & Hok & ->)|[(r & -> & Hok & Hb & ->)|
      (r & chunks & -> & Hok & Hb & Hs & ->)]]]; simpl;
      rewrite ?Hok; simpl; rewrite ?Hb; try reflexivity.
    rewrite read_loop_finish, Hs. reflexivity.
Qed.

Lemma startsWith_snoc (p s : jsstring) (c : N) :
  c ∉ p -> startsWith (s ++ [c]) p = startsWith s p.
Proof.
  revert s. induction p as [|y p IH]; intros s Hc.
  - destruct s; reflexivity.
  - destruct s as [|x s]; simpl.
    + destruct (N.eqb_spec c y) as [->|_]; [|reflexivity].
      exfalso. apply Hc. left.
    + rewrite IH; [reflexivity|]. intros H. apply Hc. right. exact H.
Qed.

Lemma on_line_carriage_return (line : jsstring) :
  on_line (line ++ [13%N]) = on_line line.
Proof.
  assert (Hp : 13%N ∉ js "data: ").
  { change (js "data: ") with [100; 97; 116; 97; 58; 32]%N. intros H.
    repeat (apply elem_of_cons in H as [H|H]; [discriminate H|]).
    inversion H. }
  destruct (startsWith line (js "data: ")) eqn:Hs.
  - rewrite (data_line _ Hs) at 1. rewrite <- app_assoc.
    rewrite (data_line _ Hs) at 2. rewrite !on_line_data.
    pose proof (trim_whitespace_around [] (slice line 6) [13%N]
                  eq_refl eq_refl) as Ht.
    cbn [app] in Ht. rewrite Ht. reflexivity.
  - unfold Api.on_line. rewrite (startsWith_snoc _ _ _ Hp), Hs.
    rewrite !andb_false_r. reflexivity.
Qed.

(** Lines that end with a carriage return — a stream with CR LF line
    ends — are read like the lines without it. *)
Theorem for_lines_carriage_return (lines : list jsstring) :
  for_lines (map (fun line => line ++ [13%N]) lines) = for_lines lines.
Proof.
  induction lines as [|line lines IH]; simpl; [reflexivity|].
  rewrite on_line_carriage_return, IH. reflexivity.
Qed.

End StreamMore.

(** ** The stored count read back *)

Lemma digits_of_uint_acc (u : Decimal.uint) (acc : positive) :
  digits (N.pos acc) (digits_of_uint u) =
    (N.pos (Pos.of_uint_acc u acc), Decimal.nb_digits u, []).
Proof.
  revert acc. induction u as [|u IH|u IH|u IH|u IH|u IH|u IH|u IH|u IH|u IH|u IH];
    intros acc; cbn [digits_of_uint Pos.of_uint_acc Decimal.nb_digits];
    [reflexivity|..];
    (cbn [digits]; change (is_digit _) with true; cbv iota;
     match goal with
     | |- context [digits ?a _] =>
         match goal with
         | |- context [Pos.of_uint_acc u ?b] =>
             replace a with (N.pos b) by lia
         end
     end;
     rewrite IH; reflexivity).
Qed.

Lemma digits_of_uint_value (u : Decimal.uint) :
  digits 0 (digits_of_uint u) = (Pos.of_uint u, Decimal.nb_digits u, []).
Proof.
  induction u as [|u IH|u IH|u IH|u IH|u IH|u IH|u IH|u IH|u IH|u IH];
    cbn [digits_of_uint Pos.of_uint Decimal.nb_digits];
    [reflexivity|..];
    cbn [digits]; change (is_digit _) with true; cbv iota.
  - change (0 * 10 + (48 - 48))%N with 0%N. rewrite IH. reflexivity.
  - change (0 * 10 + (49 - 48))%N with (N.pos 1).
    rewrite digits_of_uint_acc. reflexivity.
  - change (0 * 10 + (50 - 48))%N with (N.pos 2).
    rewrite digits_of_uint_acc. reflexivity.
  - change (0 * 10 + (51 - 48))%N with (N.pos 3).
    rewrite digits_of_uint_acc. reflexivity.
  - change (0 * 10 + (52 - 48))%N with (N.pos 4).
    rewrite digits_of_uint_acc. reflexivity.
  - change (0 * 10 + (53 - 48))%N with (N.pos 5).
    rewrite digits_of_uint_acc. reflexivity.
  - change (0 * 10 + (54 - 48))%N with (N.pos 6).
    rewrite digits_of_uint_acc. reflexivity.
  - change (0 * 10 + (55 - 48))%N with (N.pos 7).
    rewrite digits_of_uint_acc. reflexivity.
  - change (0 * 10 + (56 - 48))%N with (N.pos 8).
    rewrite digits_of_uint_acc. reflexivity.
  - change (0 * 10 + (57 - 48))%N with (N.pos 9).
    rewrite digits_of_uint_acc. reflexivity.
Qed.

(** A decimal numeral begins with a digit. *)
Lemma decimal_head (n : N) :
  exists c s, decimal n = c :: s /\ is_digit c = true /\
              Decimal.nb_digits (N.to_uint n) = S (length s).
Proof.
  unfold decimal.
  assert (Hlen : forall u, length (digits_of_uint u) = Decimal.nb_digits u).
  { induction u; simpl; congruence. }
  destruct (N.to_uint n) as [|u|u|u|u|u|u|u|u|u|u] eqn:E;
    [|eexists _, _; repeat split; simpl; try reflexivity;
      rewrite Hlen; reflexivity ..].
  exfalso. pose proof (DecimalN.Unsigned.of_to n) as H. rewrite E in H.
  simpl in H. subst n. discriminate E.
Qed.

Lemma digits_decimal (n : N) :
  exists k, digits 0 (decimal n) = (n, S k, []).
Proof.
  destruct (decimal_head n) as (c & s & _ & _ & Hn).
  exists (length s). unfold decimal.
  rewrite digits_of_uint_value, Hn.
  change (Pos.of_uint (N.to_uint n)) with (N.of_uint (N.to_uint n)).
  rewrite DecimalN.Unsigned.of_to. reflexivity.
Qed.

Lemma is_digit_not_special (c : N) :
  is_digit c = true ->
  is_js_whitespace c = false /\ N.eqb c 45 = false /\ N.eqb c 43 = false.
Proof.
  unfold is_digit. rewrite andb_true_iff, !N.leb_le. intros [H1 H2].
  unfold is_js_whitespace.
  repeat match goal with
         | |- context [N.eqb c ?k] =>
             destruct (N.eqb_spec c k); [lia|]
         | |- context [N.leb ?a ?b] =>
             destruct (N.leb_spec a b); [try lia|]
         end; auto.
Qed.

(** The count written with [toString] is the count [parseInt] reads. *)
Lemma parseInt_toString (z : Z) :
  (- MAX_SAFE_INTEGER <= z <= MAX_SAFE_INTEGER)%Z ->
  parseInt (toString (Int z)) = Int z.
Proof.
  intros _.
  unfold parseInt, toString.
  destruct (decimal_head (Z.abs_N z)) as (c & s & Hd & Hc & _).
  destruct (is_digit_not_special c Hc) as (Hws & Hminus & Hplus).
  destruct (digits_decimal (Z.abs_N z)) as [k Hk].
  destruct (Z.ltb_spec z 0) as [Hneg|Hpos].
  - change (trimStart (45%N :: decimal (Z.abs_N z)))
      with (45%N :: decimal (Z.abs_N z)).
    cbn [N.eqb Pos.eqb]. rewrite Hk. f_equal. lia.
  - rewrite Hd, (trimStart_fixed c s Hws), Hminus, Hplus, <- Hd, Hk.
    f_equal. lia.
Qed.

(** ** More on the provider *)

Section AuthMore.

Import Auth.

Lemma keys_distinct :
  Api.ACCESS_TOKEN_KEY <> MESSAGE_COUNT_KEY /\
  Api.ACCESS_TOKEN_KEY <> SESSION_ID_KEY /\
  MESSAGE_COUNT_KEY <> SESSION_ID_KEY.
Proof. split_and!; vm_compute; discriminate. Qed.

(** A rejected [login] or [register] changes neither the state nor
    [localStorage]; a resolved one stores the token of the response and
    signs in the user of the response. *)
Theorem sign_in_all_or_nothing (server : Api.backend) (w : world)
    (credentials : LoginRequest) (data : RegisterRequest) :
  let all_or_nothing (r : settled) :=
    (resolved r = false -> after r = w) /\
    (resolved r = true ->
     exists response,
       server (sent r) = Some response /\
       getItem Api.ACCESS_TOKEN_KEY (localStorage (after r))
         = Some (AuthResponse.access_token response) /\
       state (after r) = signed_in (AuthResponse.user response)) in
  all_or_nothing (login server credentials w) /\
  all_or_nothing (register server data w).
Proof.
  destruct keys_distinct as (H1 & H2 & _).
  assert (Htoken : forall token ls,
            getItem Api.ACCESS_TOKEN_KEY
              (removeItem MESSAGE_COUNT_KEY
                 (setItem Api.ACCESS_TOKEN_KEY token ls)) = Some token).
  { intros token ls. unfold getItem, removeItem, setItem.
    rewrite lookup_delete_ne by congruence. apply lookup_insert_eq. }
  cbv zeta. split.
  - unfold login. simpl.
    destruct (server (Api.PostLogin credentials)) eqn:E; simpl.
    + split; [discriminate|]. intros _. eexists. split; [exact E|]. auto.
    + split; [reflexivity|discriminate].
  - unfold register.
    destruct (present (getAnonymousSessionId w) && _); simpl;
      match goal with |- context [server ?req] =>
        destruct (server req) eqn:E end; simpl;
      (split; [try reflexivity; try discriminate|]);
      try discriminate; intros _; eexists; (split; [exact E|]);
      (split; [|reflexivity]);
      unfold getItem, removeItem at 1;
      rewrite lookup_delete_ne by congruence; apply Htoken.
Qed.

(** [login] always posts to the login endpoint; when it resolves it
    removes the stored count, and in every case it leaves the stored
    anonymous session id where it is. *)
Theorem login_keeps_session_id (server : Api.backend) (data : LoginRequest)
    (w : world) :
  sent (login server data w) = Api.PostLogin data /\
  getItem SESSION_ID_KEY (localStorage (after (login server data w)))
    = getItem SESSION_ID_KEY (localStorage w) /\
  (resolved (login server data w) = true ->
   getItem MESSAGE_COUNT_KEY (localStorage (after (login server data w)))
     = None).
Proof.
  destruct keys_distinct as (H1 & H2 & H3).
  unfold login. simpl. destruct (server (Api.PostLogin data)); simpl.
  - split_and!; [reflexivity| |intros _].
    + unfold getItem, removeItem, setItem.
      rewrite lookup_delete_ne by congruence.
      rewrite lookup_insert_ne by congruence. reflexivity.
    + unfold getItem, removeItem. apply lookup_delete_eq.
  - split_and!; [reflexivity..|discriminate].
Qed.

(** Signing in and out again starts a new quota: whatever the count was,
    after a resolved [login] and a [logout] the state is anonymous with a
    count of 0, no token is stored, and sending is allowed. *)
Theorem login_logout_resets_quota (server : Api.backend)
    (data : LoginRequest) (w : world) :
  resolved (login server data w) = true ->
  let w' := logout (after (login server data w)) in
  state w' = AuthState.mk None false true (Int 0) false /\
  getItem Api.ACCESS_TOKEN_KEY (localStorage w') = None /\
  canSendMessage (state w') = true.
Proof.
  destruct keys_distinct as (H1 & H2 & H3).
  unfold login. simpl. destruct (server (Api.PostLogin data)); simpl;
    [intros _|discriminate].
  assert (Hcount : forall ls,
            stored_count (Api.logout (removeItem MESSAGE_COUNT_KEY ls))
              = Int 0).
  { intros ls. unfold stored_count, Api.logout, getItem, removeItem.
    rewrite lookup_delete_ne by congruence. rewrite lookup_delete_eq.
    reflexivity. }
  unfold logout. simpl. rewrite Hcount. split_and!; try reflexivity.
  unfold Api.logout, getItem, removeItem. apply lookup_delete_eq.
Qed.

(** In every state the provider reaches from its initial one, whatever
    [localStorage] held at first, an authenticated state has a token
    stored. *)
Theorem authenticated_has_token (ls : Storage) (actions : list action) :
  let w := fold_left step actions (World initial_state ls) in
  AuthState.isAuthenticated (state w) = true ->
  is_Some (getItem Api.ACCESS_TOKEN_KEY (localStorage w)).
Proof.
  destruct keys_distinct as (H1 & H2 & H3).
  assert (Hstep : forall w a,
            (AuthState.isAuthenticated (state w) = true ->
             is_Some (getItem Api.ACCESS_TOKEN_KEY (localStorage w))) ->
            AuthState.isAuthenticated (state (step w a)) = true ->
            is_Some (getItem Api.ACCESS_TOKEN_KEY (localStorage (step w a)))).
  { intros w a IH.
    assert (Hset : forall token ls' ks,
              Forall (fun k => k <> Api.ACCESS_TOKEN_KEY) ks ->
              is_Some (getItem Api.ACCESS_TOKEN_KEY
                         (foldr removeItem
                            (setItem Api.ACCESS_TOKEN_KEY token ls') ks))).
    { intros token ls' ks Hks. induction Hks as [|k ks Hk _ IHks]; simpl.
      - unfold getItem, setItem. rewrite lookup_insert_eq. eauto.
      - unfold getItem, removeItem in *.
        rewrite lookup_delete_ne by congruence. exact IHks. }
    destruct a as [|server data|server data| |]; simpl.
    - unfold on_mount.
      destruct (present (getItem Api.ACCESS_TOKEN_KEY (localStorage w)))
        eqn:E; simpl.
      + intros _. destruct (getItem _ _); [eauto|discriminate].
      + exact IH.
    - unfold login. simpl. destruct (server _); simpl; [intros _|exact IH].
      apply (Hset _ _ [MESSAGE_COUNT_KEY]). repeat constructor. congruence.
    - unfold register. destruct (_ && _); simpl;
        (destruct (server _); simpl; [intros _|exact IH]);
        apply (Hset _ _ [SESSION_ID_KEY; MESSAGE_COUNT_KEY]);
        repeat constructor; congruence.
    - discriminate.
    - unfold incrementMessageCount.
      destruct (AuthState.isAnonymous (state w)); simpl; [|exact IH].
      intros H. unfold getItem, setItem in *.
      rewrite lookup_insert_ne by congruence. apply IH, H. }
  assert (G : forall w,
            (AuthState.isAuthenticated (state w) = true ->
             is_Some (getItem Api.ACCESS_TOKEN_KEY (localStorage w))) ->
            AuthState.isAuthenticated (state (fold_left step actions w))
              = true ->
            is_Some (getItem Api.ACCESS_TOKEN_KEY
                       (localStorage (fold_left step actions w)))).
  { induction actions as [|a actions IHa]; intros w Hw; simpl; [exact Hw|].
    apply IHa, Hstep, Hw. }
  apply G. discriminate.
Qed.

(** Running the mount effect twice is running it once. *)
Theorem on_mount_idempotent (w : world) : on_mount (on_mount w) = on_mount w.
Proof.
  unfold on_mount.
  destruct (present (getItem Api.ACCESS_TOKEN_KEY (localStorage w))) eqn:E;
    simpl; rewrite E; reflexivity.
Qed.

(** The count is kept across a reload of the page: after
    [incrementMessageCount] in an anonymous state without a token, a
    provider that starts again from its initial state and runs its mount
    effect has the incremented count.  This is for counts in the range
    where a number counts exactly, from [-MAX_SAFE_INTEGER], below
    [MAX_SAFE_INTEGER]; beyond it [+ 1] rounds and [toString] prints
    what [parseInt] does not read back. *)
Theorem count_restored_on_reload (w : world) (z : Z) :
  (- MAX_SAFE_INTEGER <= z < MAX_SAFE_INTEGER)%Z ->
  AuthState.isAnonymous (state w) = true ->
  AuthState.anonymousMessageCount (state w) = Int z ->
  present (getItem Api.ACCESS_TOKEN_KEY (localStorage w)) = false ->
  state (on_mount (World initial_state
                     (localStorage (incrementMessageCount w))))
    = AuthState.mk None false true (Int (z + 1)) false.
Proof.
  destruct keys_distinct as (H1 & H2 & H3).
  intros Hsafe Ha Hz Ht. unfold incrementMessageCount. rewrite Ha, Hz.
  unfold on_mount. cbn [localStorage state add1].
  assert (Htok : getItem Api.ACCESS_TOKEN_KEY
                   (setItem MESSAGE_COUNT_KEY (toString (Int (z + 1)))
                      (localStorage w))
                 = getItem Api.ACCESS_TOKEN_KEY (localStorage w)).
  { unfold getItem, setItem. apply lookup_insert_ne. congruence. }
  rewrite Htok, Ht. cbn [state localStorage]. unfold initial_state.
  cbn [AuthState.user AuthState.isAuthenticated AuthState.isAnonymous].
  f_equal.
  unfold stored_count, getItem, setItem. rewrite lookup_insert_eq.
  destruct (decimal_head (Z.abs_N (z + 1))) as (c & s & Hd & _).
  assert (Hne : exists c s, toString (Int (z + 1)) = c :: s).
  { unfold toString. destruct (z + 1 <? 0)%Z; [eauto|]. rewrite Hd. eauto. }
  destruct Hne as (c' & s' & Hs). rewrite Hs. cbn [or_else]. rewrite <- Hs.
  apply parseInt_toString. lia.
Qed.

End AuthMore.

(** ** More on the chat hook *)

Section ChatMore.

Import Chat.
Variable ToString : JsValue -> jsstring.
Variable ToNumber_positive : JsValue -> bool.

Local Abbreviation consume := (Chat.consume ToString).
Local Abbreviation sendMessage :=
  (Chat.sendMessage ToString ToNumber_positive).

Lemma run_effects_app (st : State) (fs gs : list effect) :
  run_effects st (fs ++ gs) = run_effects (run_effects st fs) gs.
Proof. unfold run_effects. apply fold_left_app. Qed.

(** When a send has settled, on either path, nothing is streaming any
    more and the streamed text is no longer shown; when it failed, the
    recorded sources are the ones there were. *)
Theorem sendMessage_settles (message : jsstring) (sessionId : JsValue)
    (now later : jsstring) (r : Api.run) (st : State) :
  let st' := run_effects st (sendMessage message sessionId now later r).1 in
  isStreaming st' = false /\
  streamingContent st' = [] /\
  (forall err, Api.finish r = Api.Threw err -> sources st' = sources st).
Proof.
  unfold Chat.sendMessage.
  pose proof (consume_shape ToString (Api.events r) [] initial_metadata)
    as [Hst _].
  destruct (consume (Api.events r) [] initial_metadata) as [[fs full] md].
  cbn [fst] in Hst.
  assert (Hsrc : forall st0, sources (run_effects st0 fs) = sources st0).
  { clear -Hst. intros st0. revert st0.
    induction Hst as [|f fs Hf _ IH]; intros st0; [reflexivity|].
    unfold run_effects in *. simpl. rewrite IH.
    destruct f; try destruct Hf; reflexivity. }
  destruct (Api.finish r) as [|err0]; cbn [fst];
    rewrite !run_effects_app.
  - unfold Chat.onSuccess. rewrite run_effects_app.
    split_and!; [| |discriminate];
      destruct (truthy _); reflexivity.
  - split_and!; [reflexivity..|]. intros _ _.
    unfold Chat.onError. cbn [run_effects fold_left apply sources].
    rewrite Hsrc. reflexivity.
Qed.

Lemma consume_text (evs : list Api.event) (full : jsstring)
    (md : list (jsstring * JsValue)) :
  Forall (fun ev => Api.type ev = Api.content ->
                    exists text, Api.data ev = JString text) evs ->
  (consume evs full md).1.2 = full ++ concat (omap delta_text evs).
Proof.
  intros H. revert full md.
  induction H as [|ev evs Hev _ IH]; intros full md; cbn [Chat.consume].
  - simpl. rewrite app_nil_r. reflexivity.
  - change (omap delta_text (ev :: evs))
      with (match delta_text ev with
            | Some y => y :: omap delta_text evs
            | None => omap delta_text evs
            end).
    unfold delta_text at 1.
    destruct (Api.type ev) eqn:Ety.
    + destruct (Hev eq_refl) as [text Ht].
      specialize (IH (concat_value ToString full (Api.data ev)) md).
      destruct (consume evs _ md) as [[fs f] m]. cbn [fst snd] in *.
      rewrite IH, Ht. simpl. rewrite <- app_assoc. reflexivity.
    + specialize (IH full (md ++ own_properties (Api.data ev))).
      destruct (consume evs full _) as [[fs f] m]. cbn [fst snd] in *.
      exact IH.
Qed.

(** When the content events carry strings and the generator returns, the
    message appended last is the assistant's, and its content is the
    texts of the content events one after the other, in the order they
    were yielded (provided there is any text at all). *)
Theorem reply_is_streamed_text (message : jsstring) (sessionId : JsValue)
    (now later : jsstring) (r : Api.run) (st : State) :
  Forall (fun ev => Api.type ev = Api.content ->
                    exists text, Api.data ev = JString text)
         (Api.events r) ->
  Api.finish r = Api.Returned ->
  concat (omap delta_text (Api.events r)) <> [] ->
  exists reply,
    last (messages
            (run_effects st (sendMessage message sessionId now later r).1))
      = Some reply /\
    Message.role reply = assistant /\
    Message.timestamp reply = later /\
    Message.content reply = concat (omap delta_text (Api.events r)).
Proof.
  intros Hstr Hfin Hne.
  destruct (sendMessage_shape ToString ToNumber_positive
              message sessionId now later r)
    as (streamed & reply & srcs & rest & Hfs & Hst & _ & Hrest & Hrole &
        Htime & Hcontent).
  rewrite Hfin in Hcontent. destruct Hcontent as [_ Hcontent].
  rewrite (consume_text _ _ _ Hstr) in Hcontent. cbn [app] in Hcontent.
  exists reply. split_and!; try assumption.
  - rewrite messages_run_effects, Hfs.
    assert (Hq1 : omap appended streamed = []).
    { apply omap_appended_nil. eapply Forall_impl; [exact Hst|].
      intros [] Hf; try exact I; destruct Hf. }
    assert (Hq2 : omap appended rest = []).
    { apply omap_appended_nil. eapply Forall_impl; [exact Hrest|].
      intros [] Hf; try exact I; destruct Hf. }
    cbn [app omap list_omap appended].
    rewrite omap_app, Hq1. cbn [app omap list_omap appended]. rewrite Hq2.
    change ([Message.mk user message now None; reply])
      with ([Message.mk user message now None] ++ [reply]).
    rewrite app_assoc, last_snoc. reflexivity.
  - rewrite Hcontent.
    destruct (concat (omap delta_text (Api.events r))); [congruence|].
    reflexivity.
Qed.




(** Every operation of the hook keeps the recorded sources at indices of
    messages: whatever effects run, after a history is loaded, after the
    messages are cleared. *)
Theorem sources_stay_in_range (st : State) (fs : list effect)
    (historyMessages : list Message) :
  sources_in_range initial /\
  (sources_in_range st -> sources_in_range (run_effects st fs)) /\
  sources_in_range (setMessagesFromHistory historyMessages st) /\
  sources_in_range (clearMessages st).
Proof.
  split_and!.
  - intros i d H. change (sources initial) with (∅ : gmap nat JsValue) in H.
    rewrite lookup_empty in H. discriminate.
  - unfold run_effects. revert st.
    induction fs as [|f fs IH]; intros st Hst; [exact Hst|].
    simpl. apply IH. clear IH.
    destruct f as [m [d|]|b|text|ev| |sid|]; try exact Hst.
    + intros i d' Hi. cbn [apply sources messages] in *.
      rewrite length_app in *. simpl in *.
      destruct (decide (i = length (messages st) + 1 - 1)) as [->|Hne];
        [lia|].
      rewrite lookup_insert_ne in Hi by congruence.
      specialize (Hst _ _ Hi). lia.
    + intros i d' Hi. cbn [apply sources messages] in *.
      rewrite length_app. specialize (Hst _ _ Hi). lia.
  - intros i d Hi. unfold setMessagesFromHistory in *.
    cbn [sources messages] in *. rewrite reconstruct_lookup in Hi.
    destruct (decide (0 <= i)); [|lia]. rewrite Nat.sub_0_r in Hi.
    destruct (historyMessages !! i) eqn:E.
    + apply lookup_lt_Some in E. exact E.
    + simpl in Hi. rewrite lookup_empty in Hi. discriminate.
  - intros i d H.
    change (sources (clearMessages st)) with (∅ : gmap nat JsValue) in H.
    rewrite lookup_empty in H. discriminate.
Qed.

(** [onMessageSent] is called once when the send resolves and not at all
    when it fails; [onSessionCreated] is called at most once, only when
    the send resolves, and with a truthy session id. *)
Theorem callbacks_of_a_send (message : jsstring) (sessionId : JsValue)
    (now later : jsstring) (r : Api.run) :
  let fs := (sendMessage message sessionId now later r).1 in
  let resolved := (sendMessage message sessionId now later r).2 in
  length (List.filter (fun f => match f with
                                | OnMessageSent => true
                                | _ => false
                                end) fs)
    = (if resolved then 1 else 0) /\
  length (List.filter (fun f => match f with
                                | OnSessionCreated _ => true
                                | _ => false
                                end) fs)
    <= (if resolved then 1 else 0) /\
  (forall i id, fs !! i = Some (OnSessionCreated id) -> truthy id = true) /\
  (resolved = true <-> Api.finish r = Api.Returned).
Proof.
  unfold Chat.sendMessage.
  pose proof (consume_shape ToString (Api.events r) [] initial_metadata)
    as [Hst _].
  destruct (consume (Api.events r) [] initial_metadata) as [[fs full] md].
  cbn [fst] in Hst.
  assert (Hnone : forall test : effect -> bool,
            (forall f, streaming f -> test f = false) ->
            List.filter test fs = []).
  { intros test Ht. clear -Hst Ht.
    induction Hst as [|f fs Hf _ IH]; [reflexivity|].
    simpl. rewrite (Ht f Hf). exact IH. }
  assert (Hlook : forall i id closing,
            (([AppendMessage (Message.mk user message now None) None;
               SetIsStreaming true; SetStreamingContent []] ++ fs)
             ++ closing) !! i = Some (OnSessionCreated id) ->
            OnSessionCreated id ∈ closing).
  { intros i id closing Hi. apply list_elem_of_lookup_2 in Hi.
    rewrite !elem_of_app in Hi. destruct Hi as [[Hi|Hi]|Hi]; [| |exact Hi].
    - repeat (apply elem_of_cons in Hi as [Hi|Hi]; [discriminate Hi|]).
      inversion Hi.
    - exfalso. rewrite Forall_forall in Hst. apply (Hst _ Hi). }
  destruct (Api.finish r) as [|err]; cbn [fst snd];
    rewrite !List.filter_app, !Hnone
      by (intros [] Hf; try reflexivity; destruct Hf);
    cbn [List.filter app].
  - unfold Chat.onSuccess. split_and!.
    + destruct (truthy _); reflexivity.
    + destruct (truthy _); simpl; lia.
    + intros i id Hi. apply Hlook in Hi. unfold Chat.onSuccess in Hi.
      destruct (truthy (or_value _ sessionId)) eqn:E; simpl in Hi;
        repeat (apply elem_of_cons in Hi as [Hi|Hi];
                [try discriminate Hi|]);
        try (inversion Hi; fail).
      injection Hi as ->. exact E.
    + split; reflexivity.
  - split_and!; [reflexivity|simpl; lia| |split; discriminate].
    intros i id Hi. apply Hlook in Hi. unfold Chat.onError in Hi.
    repeat (apply elem_of_cons in Hi as [Hi|Hi]; [discriminate Hi|]).
    inversion Hi.
Qed.

End ChatMore.

(** ** More on the session list *)

Section SessionsMore.

Import Sessions.

Lemma filter_twice {A : Type} (f g : A -> bool) (l : list A) :
  List.filter f (List.filter g l) = List.filter g (List.filter f l).
Proof.
  induction l as [|x l IH]; [reflexivity|]. simpl.
  destruct (g x) eqn:Eg, (f x) eqn:Ef; simpl; rewrite ?Eg, ?Ef, IH;
    reflexivity.
Qed.

Lemma filter_again {A : Type} (f : A -> bool) (l : list A) :
  List.filter f (List.filter f l) = List.filter f l.
Proof.
  induction l as [|x l IH]; [reflexivity|]. simpl.
  destruct (f x) eqn:Ef; simpl; rewrite ?Ef, IH; reflexivity.
Qed.

(** Deleting a session that is already gone changes nothing more,
    whether the second request succeeds or fails; and two deletions give
    the same state in either order. *)
Theorem deleteSession_again (a b : jsstring) (st : State) :
  let once := (deleteSession a true st).1 in
  deleteSession a true once = (once, true) /\
  deleteSession a false once = (once, false) /\
  (deleteSession b true (deleteSession a true st).1).1
    = (deleteSession a true (deleteSession b true st).1).1.
Proof.
  unfold deleteSession, onMutate, onError, onSettled, setCurrentSessionId.
  simpl. split_and!.
  - destruct (is_string (currentSessionId st) a) eqn:E; simpl;
      rewrite ?E; destruct (cache st); simpl; rewrite ?filter_again;
      reflexivity.
  - destruct (is_string (currentSessionId st) a) eqn:E; simpl;
      destruct (cache st); reflexivity.
  - destruct (is_string (currentSessionId st) a) eqn:Ea,
             (is_string (currentSessionId st) b) eqn:Eb; simpl;
      rewrite ?Ea, ?Eb; simpl;
      destruct (cache st); simpl;
      rewrite ?(filter_twice (other_than b) (other_than a));
      reflexivity.
Qed.

End SessionsMore.

(** ** More on the page *)

Section PageMore.

Import Page.
Variable JSON_parse : jsstring -> option JsValue.
Variable ToString : JsValue -> jsstring.
Variable ToNumber_positive : JsValue -> bool.

Local Abbreviation handleSendMessage :=
  (Page.handleSendMessage JSON_parse ToString ToNumber_positive).
Local Abbreviation handle_sends :=
  (Page.handle_sends JSON_parse ToString ToNumber_positive).

Lemma state_eta (p : State) :
  mkState (auth p) (chat p) (sessions p) (limitModalOpen p) = p.
Proof. destruct p; reflexivity. Qed.

(** The effects of a send change the chat state as [useChat] applies
    them. *)
Lemma callback_chat (fs : list Chat.effect) (p : State) :
  chat (fold_left callback fs p) = Chat.run_effects (chat p) fs.
Proof.
  unfold Chat.run_effects. revert p.
  induction fs as [|f fs IH]; intros p; simpl; [reflexivity|].
  rewrite IH. destruct f; reflexivity.
Qed.

(** Once the limit is reached every send is refused: none completes, and
    the provider, the chat and the sessions stay as they are; the limit
    modal is open after the first of them. *)
Theorem sends_refused_at_limit (sends : list send) (p : State) :
  Auth.canSendMessage (Auth.state (auth p)) = false ->
  (handle_sends sends p).2 = 0 /\
  auth (handle_sends sends p).1 = auth p /\
  chat (handle_sends sends p).1 = chat p /\
  sessions (handle_sends sends p).1 = sessions p /\
  (sends <> [] -> limitModalOpen (handle_sends sends p).1 = true).
Proof.
  intros Hgate.
  assert (G : forall sends p,
            Auth.canSendMessage (Auth.state (auth p)) = false ->
            handle_sends sends p =
              (match sends with
               | [] => p
               | _ => mkState (auth p) (chat p) (sessions p) true
               end, 0)).
  { clear. induction sends as [|[[[content now] later] f] sends IH];
      intros p Hgate; cbn [Page.handle_sends]; [reflexivity|].
    unfold Page.handleSendMessage. rewrite Hgate. cbn [negb].
    rewrite IH by exact Hgate. destruct sends; reflexivity. }
  rewrite (G sends p Hgate). destruct sends; simpl; auto.
  split_and!; try reflexivity. congruence.
Qed.

(** A send whose stream fails does not count: the provider and its
    storage are as before, and the chat holds the question and an error
    notice. *)
Theorem failed_send_keeps_quota (content now later : jsstring)
    (f : Api.fetched) (err : Api.error) (p : State) :
  Auth.canSendMessage (Auth.state (auth p)) = true ->
  Api.finish (Api.streamMessage JSON_parse f) = Api.Threw err ->
  let p' := (handleSendMessage content now later f p).1 in
  (handleSendMessage content now later f p).2 = Failed /\
  auth p' = auth p /\
  Chat.messages (chat p') =
    Chat.messages (chat p) ++
    [Message.mk user content now None;
     Message.mk assistant
       (js "I apologize, but I encountered an error. Please try again.")
       later None].
Proof.
  intros Hgate Hfin.
  pose proof (handleSendMessage_auth JSON_parse ToString ToNumber_positive
                content now later f p) as [Hauth _].
  assert (Hres : (handleSendMessage content now later f p).2 = Failed).
  { unfold Page.handleSendMessage, Chat.sendMessage. rewrite Hgate.
    cbn [negb]. destruct (Chat.consume _ _ _ _) as [[fs full] md].
    rewrite Hfin. reflexivity. }
  rewrite Hres in Hauth. split_and!; [exact Hres|exact Hauth|].
  unfold Page.handleSendMessage, Chat.sendMessage. rewrite Hgate.
  cbn [negb].
  pose proof (consume_shape ToString
                (Api.events (Api.streamMessage JSON_parse f)) []
                Chat.initial_metadata) as [Hst _].
  destruct (Chat.consume _ _ _ _) as [[fs full] md]. rewrite Hfin.
  cbn [fst snd] in *. rewrite callback_chat, messages_run_effects.
  f_equal. cbn [app omap list_omap Chat.appended].
  rewrite omap_app.
  rewrite (omap_appended_nil fs).
  - reflexivity.
  - eapply Forall_impl; [exact Hst|]. intros [] Hf; try exact I; destruct Hf.
Qed.

(** For an authenticated user no send is refused and none is counted: the
    provider stays as it is, and the sends that complete are the ones
    whose stream returns. *)
Theorem authenticated_sends_unlimited (sends : list send) (p : State) :
  AuthState.isAuthenticated (Auth.state (auth p)) = true ->
  AuthState.isAnonymous (Auth.state (auth p)) = false ->
  auth (handle_sends sends p).1 = auth p /\
  limitModalOpen (handle_sends sends p).1 = limitModalOpen p /\
  (handle_sends sends p).2 =
    length (List.filter
              (fun s : send =>
                 match Api.finish (Api.streamMessage JSON_parse s.2) with
                 | Api.Returned => true
                 | Api.Threw _ => false
                 end) sends).
Proof.
  revert p. induction sends as [|[[[content now] later] f] sends IH];
    intros p Hauth Hanon; cbn [Page.handle_sends]; [auto|].
  pose proof (handleSendMessage_auth JSON_parse ToString ToNumber_positive
                content now later f p) as [Ha _].
  assert (Hinc : Auth.incrementMessageCount (auth p) = auth p).
  { unfold Auth.incrementMessageCount. rewrite Hanon. reflexivity. }
  assert (Hout : (handleSendMessage content now later f p).2 =
                 match Api.finish (Api.streamMessage JSON_parse f) with
                 | Api.Returned => Completed
                 | Api.Threw _ => Failed
                 end /\
                 limitModalOpen (handleSendMessage content now later f p).1
                   = limitModalOpen p).
  { unfold Page.handleSendMessage, Auth.canSendMessage, Chat.sendMessage.
    rewrite Hauth. cbn [negb].
    destruct (Chat.consume _ _ _ _) as [[fs full] md].
    assert (Hmodal : forall fs p0,
              limitModalOpen (fold_left callback fs p0) = limitModalOpen p0).
    { clear. induction fs as [|g fs IHf]; intros p0; simpl; [reflexivity|].
      rewrite IHf. destruct g; reflexivity. }
    destruct (Api.finish _); cbn [fst snd]; rewrite Hmodal; auto. }
  destruct Hout as [Hout Hmodal].
  destruct (handleSendMessage content now later f p) as [p1 outcome].
  cbn [fst snd] in *.
  assert (Hp1 : auth p1 = auth p).
  { rewrite Ha. destruct outcome; [reflexivity..|exact Hinc]. }
  rewrite <- Hp1 in Hauth, Hanon.
  destruct (IH p1 Hauth Hanon) as (IH1 & IH2 & IH3).
  destruct (handle_sends sends p1) as [p2 n]. cbn [fst snd] in *.
  split_and!; [congruence|congruence|].
  subst outcome n. cbn [List.filter snd].
  destruct (Api.finish (Api.streamMessage JSON_parse f)); reflexivity.
Qed.

(** What the input hands over is never refused: the page disables the
    input exactly when the gate is closed, and a disabled input sends
    nothing. *)
Theorem input_passes_gate (loading : bool) (message text draft : jsstring)
    (now later : jsstring) (f : Api.fetched) (p : State) :
  ChatInput.handleSubmit (ChatPage.input_disabled p) loading message
    = (Some text, draft) ->
  (handleSendMessage text now later f p).2 <> Refused /\
  loading = false /\ text = trim message /\ text <> [] /\ draft = [].
Proof.
  unfold ChatInput.handleSubmit, ChatPage.input_disabled.
  destruct (truthy (JString (trim message))) eqn:Et; simpl; [|discriminate].
  destruct (Auth.canSendMessage (Auth.state (auth p))) eqn:Eg; simpl;
    [|discriminate].
  destruct loading; simpl; [discriminate|].
  intros [= <- <-]. split_and!; try reflexivity.
  - unfold Page.handleSendMessage. rewrite Eg. cbn [negb].
    destruct (Chat.sendMessage _ _ _ _ _ _ _) as [fs [|]]; discriminate.
  - destruct (trim message); [discriminate|congruence].
Qed.

End PageMore.

(** ** The sidebar handlers and the message list *)

Section ChatPageFacts.

Import ChatPage.

Lemma renders_recorded (firstSource : JsValue) (others : list JsValue) :
  SourcesDisplay.renders
    (ChatMessage.sources_or_empty (Some (JArray (firstSource :: others))))
    = true.
Proof.
  unfold SourcesDisplay.renders, ChatMessage.sources_or_empty.
  cbn [truthy negb orb Chat.length_of SourcesDisplay.is_zero length].
  unfold rounds_to_zero. rewrite Nat2N.inj_succ.
  destruct (N.of_nat (length others)); reflexivity.
Qed.

(** After a history is loaded, the message list shows a sources panel at
    exactly the messages that are not the user's and carry a non-empty
    list of full sources; a message without sources, or with a legacy
    list of ids, shows none. *)
Theorem history_panels (historyMessages : list Message) (st : Chat.State)
    (i : nat) :
  shows_sources <$>
    Page.message_list (Chat.setMessagesFromHistory historyMessages st) !! i
  = (fun m => negb (ChatMessage.isUser m) &&
              bool_decide (is_Some (Chat.recorded_sources m)))
    <$> historyMessages !! i.
Proof.
  unfold Page.message_list. rewrite list_lookup_imap.
  unfold Chat.setMessagesFromHistory. cbn [Chat.messages Chat.sources].
  rewrite reconstruct_lookup. destruct (decide (0 <= i)); [|lia].
  rewrite Nat.sub_0_r.
  destruct (historyMessages !! i) as [m|] eqn:E; [|reflexivity].
  simpl. f_equal. unfold shows_sources, ChatMessage.ChatMessage. simpl.
  destruct (ChatMessage.isUser m); [reflexivity|]. simpl.
  unfold Chat.recorded_sources.
  destruct (Message.sources m) as [[|firstSource others]|]; try reflexivity.
  destruct firstSource; first [reflexivity | apply renders_recorded].
Qed.

(** Opening a conversation and deleting it closes it: the chat is empty,
    no session is current and the session is gone from the list.
    Deleting another conversation, or a delete that fails, leaves the
    open one as it is. *)
Theorem delete_open_conversation (sessionId other : jsstring)
    (messages : list Message) (deleted : bool) (u : UI) :
  let opened := page (handleSelectSession sessionId (Some messages) u) in
  Chat.messages (Page.chat opened) = messages /\
  Sessions.currentSessionId (Page.sessions opened) = JString sessionId /\
  (let p := handleDeleteSession sessionId true opened in
   Chat.messages (Page.chat p) = [] /\
   Chat.sources (Page.chat p) = ∅ /\
   Sessions.currentSessionId (Page.sessions p) = JUndefined /\
   forall s, s ∈ Sessions.sessions (Page.sessions p) ->
             ChatSession.session_id s <> sessionId) /\
  (let p := handleDeleteSession sessionId false opened in
   Page.chat p = Page.chat opened /\
   Sessions.currentSessionId (Page.sessions p) = JString sessionId) /\
  (other <> sessionId ->
   let p := handleDeleteSession other deleted opened in
   Page.chat p = Page.chat opened /\
   Sessions.currentSessionId (Page.sessions p) = JString sessionId).
Proof.
  unfold handleSelectSession, handleDeleteSession, handleNewChat,
    Sessions.selectSession, Sessions.deleteSession, Sessions.onMutate,
    Sessions.onSettled, Sessions.onError, Sessions.setCurrentSessionId,
    Sessions.clearCurrentSession, Sessions.sessions.
  cbn -[str_eqb]. rewrite !str_eqb_refl. cbn -[str_eqb].
  split_and!; try reflexivity.
  - intros s Hs.
    destruct (Sessions.cache (Page.sessions (page u))) as [old|];
      simpl in Hs.
    + apply list_elem_of_In, filter_In in Hs as [_ Hs].
      unfold Sessions.other_than in Hs.
      apply negb_true_iff, str_eqb_neq in Hs. exact Hs.
    + apply elem_of_nil in Hs. destruct Hs.
  - destruct (Sessions.cache (Page.sessions (page u))); reflexivity.
  - intros Hne. apply not_eq_sym, str_eqb_neq in Hne. rewrite Hne.
    destruct deleted; cbn -[str_eqb]; rewrite ?Hne;
      destruct (Sessions.cache (Page.sessions (page u)));
      split; reflexivity.
Qed.

(** A conversation that cannot be loaded leaves the page as it is. *)
Theorem select_failure_changes_nothing (sessionId : jsstring) (u : UI) :
  handleSelectSession sessionId None u = u.
Proof.
  unfold handleSelectSession, with_page. simpl.
  destruct u as [[a c s m] sb lm rm]. reflexivity.
Qed.

End ChatPageFacts.

(** ** The input and the registration form *)

(** What [handleSubmit] hands to [onSend] is the draft trimmed: not
    empty, with no white space at either end, and the same when trimmed
    again; it hands over nothing while the input is disabled or loading
    or the draft is blank, and then keeps the draft.  The submit button is
    disabled exactly when nothing would be sent, and Enter with Shift
    sends nothing. *)
Theorem handleSubmit_sends_trimmed (disabled loading : bool)
    (message : jsstring) :
  match (ChatInput.handleSubmit disabled loading message).1 with
  | Some text =>
      disabled = false /\ loading = false /\
      text = trim message /\ trim text = text /\
      (exists c m, text = c :: m /\ is_js_whitespace c = false) /\
      (exists m d, text = m ++ [d] /\ is_js_whitespace d = false) /\
      (ChatInput.handleSubmit disabled loading message).2 = []
  | None =>
      (disabled = true \/ loading = true \/ trim message = []) /\
      (ChatInput.handleSubmit disabled loading message).2 = message
  end /\
  (ChatInput.submit_disabled disabled loading message = true <->
   (ChatInput.handleSubmit disabled loading message).1 = None) /\
  ChatInput.handleKeyDown (js "Enter") true disabled loading message
    = (None, message).
Proof.
  unfold ChatInput.handleSubmit, ChatInput.submit_disabled.
  split_and!; [| |reflexivity].
  - destruct (trim_shape message) as [E|[H1 H2]].
    + rewrite E. simpl. auto.
    + destruct H1 as (c & m & E & Hc). rewrite E. simpl.
      destruct disabled, loading; simpl; auto.
      rewrite <- E. split_and!; try reflexivity.
      * apply trim_idempotent.
      * exists c, m. auto.
      * exact H2.
  - destruct (truthy (JString (trim message))), disabled, loading; simpl;
      split; try reflexivity; discriminate.
Qed.

(** The registration form sends a request exactly when the two passwords
    are the same and have at least 8 code units, and what it sends is the
    email and that password.  Without a request, and when the request is
    rejected, the provider is as before and the form stays open with an
    error; when the request is accepted the form is emptied and closed
    and the state is authenticated.  After a request the form is no
    longer loading. *)
Theorem register_form_validation (server : Api.backend) (detail : JsValue)
    (f : RegisterModal.form) (w : Auth.world) :
  let r := RegisterModal.handleSubmit server detail f w in
  (RegisterModal.registration r = None -> RegisterModal.closed r = false) /\
  (is_Some (RegisterModal.registration r) <->
   RegisterModal.password f = RegisterModal.confirmPassword f /\
   8 <= length (RegisterModal.password f)) /\
  (forall s, RegisterModal.registration r = Some s ->
     s = Auth.register server
           (RegisterRequest.mk (RegisterModal.email f)
              (RegisterModal.password f) None) w /\
     RegisterModal.closed r = Auth.resolved s /\
     RegisterModal.loading (RegisterModal.form_after r) = false) /\
  (RegisterModal.closed r = false ->
   RegisterModal.world_after r = w /\
   truthy (RegisterModal.error (RegisterModal.form_after r)) = true /\
   RegisterModal.password (RegisterModal.form_after r)
     = RegisterModal.password f) /\
  (RegisterModal.closed r = true ->
   RegisterModal.form_after r = RegisterModal.Form [] [] [] (JString []) false /\
   AuthState.isAuthenticated (Auth.state (RegisterModal.world_after r))
     = true).
Proof.
  cbv zeta. split.
  { unfold RegisterModal.handleSubmit.
    destruct (negb _); [reflexivity|].
    destruct (Nat.ltb _ _); [reflexivity|].
    cbv zeta. destruct (Auth.resolved _); cbn; discriminate. }
  unfold RegisterModal.handleSubmit.
  destruct (str_eqb (RegisterModal.password f)
              (RegisterModal.confirmPassword f)) eqn:Eeq; cbn [negb].
  - apply str_eqb_eq in Eeq.
    destruct (Nat.ltb_spec (length (RegisterModal.password f)) 8) as [Hlt|Hge].
    + cbv zeta. cbn. split_and!.
      * split; [intros [? [=]]|intros [_ ?]; lia].
      * intros s [=].
      * intros _. auto.
      * discriminate.
    + cbv zeta.
      destruct (Auth.resolved (Auth.register server _ w)) eqn:Eres;
        cbn [RegisterModal.registration RegisterModal.closed
             RegisterModal.world_after RegisterModal.form_after
             RegisterModal.loading RegisterModal.error
             RegisterModal.password].
      * split_and!; [split; [intros _; split; [exact Eeq|lia]|intros _; eauto]| | discriminate |].
        -- intros s [= <-]. auto.
        -- intros _. split; [reflexivity|].
           revert Eres. unfold Auth.register.
           destruct (_ && _); simpl; destruct (server _); simpl;
             first [discriminate|reflexivity].
      * split_and!; [split; [intros _; split; [exact Eeq|lia]|intros _; eauto]| | |discriminate].
        -- intros s [= <-]. auto.
        -- intros _. split_and!; [|destruct (truthy detail) eqn:Ed;
                                     [exact Ed|reflexivity]|reflexivity].
           revert Eres. unfold Auth.register.
           destruct (_ && _); simpl; destruct (server _); simpl;
             first [discriminate|reflexivity].
  - apply str_eqb_neq in Eeq. cbv zeta. cbn. split_and!.
    + split; [intros [? [=]]|intros [? _]; congruence].
    + intros s [=].
    + intros _. auto.
    + discriminate.
Qed.

(** The line shown for the question of a source begins like the
    question; it is the whole question when that has at most 50 code
    units, and has exactly 53 code units however long the question is
    otherwise. *)
Theorem preview_bounded (question : jsstring) :
  length (SourcesDisplay.preview question) <= 53 /\
  take 50 (SourcesDisplay.preview question) = take 50 question /\
  (length question <= 50 -> SourcesDisplay.preview question = question) /\
  (50 < length question -> length (SourcesDisplay.preview question) = 53).
Proof.
  unfold SourcesDisplay.preview.
  destruct (Nat.ltb_spec 50 (length question)) as [Hlt|Hge].
  - assert (Hlen : length (take 50 question ++ js "...") = 53).
    { rewrite length_app, length_take.
      change (length (js "...")) with 3. lia. }
    split_and!.
    + lia.
    + rewrite take_app_le by (rewrite length_take; lia).
      rewrite take_take. f_equal.
    + lia.
    + intros _. exact Hlen.
  - rewrite app_nil_r.
    split_and!; rewrite ?(take_ge question 50) by lia;
      first [reflexivity | lia].
Qed.

(** ** The knowledge-base page *)

Section DocumentsFacts.

Variable toLowerCase : jsstring -> jsstring.
Variable inherited : jsstring -> bool.

Import Documents.

Local Abbreviation categoryCounts := (categoryCounts inherited).
Local Abbreviation filteredDocuments := (filteredDocuments toLowerCase).

Lemma existsb_str_eqb (x : jsstring) (seen : list jsstring) :
  existsb (str_eqb x) seen = true <-> x ∈ seen.
Proof.
  rewrite existsb_exists. split.
  - intros (y & Hy & E). apply str_eqb_eq in E. subst y.
    apply list_elem_of_In. exact Hy.
  - intros H. exists x. split; [apply list_elem_of_In; exact H|].
    apply str_eqb_refl.
Qed.

Lemma distinct_elem_of (items seen : list jsstring) (x : jsstring) :
  x ∈ distinct seen items <-> x ∈ items /\ x ∉ seen.
Proof.
  revert seen. induction items as [|y items IH]; intros seen.
  - simpl. split; [intros H; inversion H|intros [H _]; inversion H].
  - cbn [distinct]. destruct (existsb (str_eqb y) seen) eqn:E.
    + apply existsb_str_eqb in E. rewrite IH, elem_of_cons.
      split; [tauto|]. intros [[->|H] Hn]; [contradiction|tauto].
    + assert (Hy : y ∉ seen).
      { intros H. apply existsb_str_eqb in H. congruence. }
      rewrite !elem_of_cons, IH, elem_of_cons.
      destruct (decide (x = y)) as [->|Hne]; [tauto|]. tauto.
Qed.

Lemma distinct_NoDup (items seen : list jsstring) :
  NoDup (distinct seen items).
Proof.
  revert seen. induction items as [|y items IH]; intros seen.
  - constructor.
  - cbn [distinct]. destruct (existsb (str_eqb y) seen); [apply IH|].
    constructor; [|apply IH].
    rewrite distinct_elem_of, elem_of_cons. tauto.
Qed.

(** The category buttons: [all], then every non-empty category of a
    document, each once.  The only name that can come twice is [all]
    itself, and it does exactly when a document has the category [all].
    With an empty search, every button after the first shows at least one
    document. *)
Theorem categories_buttons (documents : list Document) :
  let has c doc := Document.category (Document.metadata doc) = Some c in
  (forall c, c ∈ categories documents <->
             c = js "all" \/
             c <> [] /\ exists doc, doc ∈ documents /\ has c doc) /\
  NoDup (tail (categories documents)) /\
  (NoDup (categories documents) <->
   forall doc, doc ∈ documents -> ~ has (js "all") doc) /\
  Forall (fun c => filteredDocuments [] c documents <> [])
         (tail (categories documents)).
Proof.
  intros has.
  assert (Hin : forall c,
    c ∈ distinct []
          (omap (fun doc =>
                   if named (Document.category (Document.metadata doc))
                   then Document.category (Document.metadata doc) else None)
                documents) <->
    c <> [] /\ exists doc, doc ∈ documents /\ has c doc).
  { intros c. rewrite distinct_elem_of, list_elem_of_omap. split.
    - intros [(doc & Hd & E) _]. unfold has, named, present in *.
      destruct (Document.category (Document.metadata doc)) as [[|x s]|]
        eqn:Ec; try discriminate.
      injection E as <-. split; [discriminate|]. exists doc. auto.
    - intros (Hc & doc & Hd & E). split; [|apply not_elem_of_nil].
      exists doc. split; [exact Hd|]. unfold has in E. rewrite E.
      unfold named, present. destruct c; [contradiction|reflexivity]. }
  unfold categories. cbn [tail]. split_and!.
  - intros c. rewrite elem_of_cons, Hin. reflexivity.
  - apply distinct_NoDup.
  - rewrite NoDup_cons. split.
    + intros [Hn _] doc Hd E. apply Hn, Hin.
      split; [discriminate|]. exists doc. auto.
    + intros Hn. split; [|apply distinct_NoDup].
      intros (_ & doc & Hd & E)%Hin. exact (Hn doc Hd E).
  - apply Forall_forall. intros c (Hc & doc & Hd & E)%Hin Hnil.
    assert (Hf : doc ∈ filteredDocuments [] c documents).
    { apply list_elem_of_In, filter_In. split; [apply list_elem_of_In, Hd|].
      unfold matchesSearch, matchesCategory. unfold has in E. rewrite E.
      rewrite str_eqb_refl, orb_true_r. reflexivity. }
    rewrite Hnil in Hf. inversion Hf.
Qed.

(** How many documents count for a category. *)
Local Abbreviation counted c documents :=
  (length (List.filter (fun doc => str_eqb (category_or_unknown doc) c)
                       documents)).

Lemma count_one_lookup (acc : gmap (list N) tally) (category c : jsstring) :
  count_one inherited acc category !! c =
    if str_eqb category c then
      Some match acc !! c with
           | Some (Count n) => Count (n + 1)
           | Some NotACount => NotACount
           | None => if inherited c then NotACount else Count 1
           end
    else acc !! c.
Proof.
  unfold count_one. destruct (str_eqb category c) eqn:E.
  - apply str_eqb_eq in E. subst. rewrite lookup_insert_eq. reflexivity.
  - apply str_eqb_neq in E. rewrite lookup_insert_ne by exact E.
    reflexivity.
Qed.

Lemma fold_count_lookup (documents : list Document)
    (acc : gmap (list N) tally) (c : jsstring) :
  fold_left (fun acc doc => count_one inherited acc (category_or_unknown doc))
            documents acc !! c =
    match counted c documents with
    | 0 => acc !! c
    | S k =>
        Some match acc !! c with
             | Some (Count n) => Count (n + S k)
             | Some NotACount => NotACount
             | None => if inherited c then NotACount else Count (S k)
             end
    end.
Proof.
  revert acc. induction documents as [|doc documents IH]; intros acc.
  - reflexivity.
  - cbn [fold_left List.filter]. rewrite IH, count_one_lookup.
    destruct (str_eqb (category_or_unknown doc) c); cbn [length].
    + destruct (counted c documents) as [|k].
      * destruct (acc !! c) as [[n|]|]; reflexivity.
      * destruct (acc !! c) as [[n|]|]; try reflexivity.
        -- do 2 f_equal. lia.
        -- destruct (inherited c); [reflexivity|].
           do 2 f_equal.
    + reflexivity.
Qed.

(** The entry of [categoryCounts] for a name: none when no document
    counts for it; otherwise the number of documents that do, unless the
    name is one that every object inherits, for which the entry is not a
    number. *)
Theorem categoryCounts_lookup (documents : list Document) (c : jsstring) :
  categoryCounts documents !! c =
    match counted c documents with
    | 0 => None
    | S k => Some (if inherited c then NotACount else Count (S k))
    end.
Proof.
  unfold Documents.categoryCounts. rewrite fold_count_lookup.
  rewrite lookup_empty. reflexivity.
Qed.

(** For a category that is neither [all] nor [Unknown] nor empty nor an
    inherited name, the number on its button is the number of documents
    the page shows when the button is chosen and the search is empty. *)
Theorem badge_counts_shown (documents : list Document) (c : jsstring)
    (Hall : c <> js "all") (Hunknown : c <> js "Unknown") (Hc : c <> [])
    (Hown : inherited c = false) :
  categoryCounts documents !! c =
    match length (filteredDocuments [] c documents) with
    | 0 => None
    | n => Some (Count n)
    end.
Proof.
  unfold Documents.categoryCounts.
  rewrite fold_count_lookup, lookup_empty, Hown.
  assert (E : counted c documents
              = length (filteredDocuments [] c documents)).
  { unfold Documents.filteredDocuments. f_equal.
    apply filter_ext. intros doc.
    unfold matchesSearch, matchesCategory, category_or_unknown, or_else.
    apply str_eqb_neq in Hall. rewrite Hall. cbn [truthy negb orb andb].
    assert (Hu : str_eqb (js "Unknown") c = false)
      by (apply str_eqb_neq; auto).
    assert (He : str_eqb [] c = false) by (apply str_eqb_neq; auto).
    destruct (Document.category (Document.metadata doc)) as [[|x s]|];
      cbv beta iota; rewrite ?Hu, ?He; reflexivity. }
  rewrite E. destruct (length _); reflexivity.
Qed.

(** With an empty search and the category [all] every document is
    shown; and a document that is shown for a category other than [all]
    has exactly that category. *)
Theorem filteredDocuments_category (searchQuery selectedCategory : jsstring)
    (documents : list Document) :
  filteredDocuments [] (js "all") documents = documents /\
  (selectedCategory <> js "all" ->
   Forall (fun doc => Document.category (Document.metadata doc)
                      = Some selectedCategory)
          (filteredDocuments searchQuery selectedCategory documents)).
Proof.
  split.
  - unfold Documents.filteredDocuments.
    induction documents as [|doc documents IH]; [reflexivity|].
    cbn [List.filter]. unfold matchesSearch at 1, matchesCategory at 1.
    cbn [truthy negb orb andb]. rewrite str_eqb_refl. cbn [orb].
    f_equal. exact IH.
  - intros Hall. apply Forall_forall. intros doc Hd.
    apply list_elem_of_In, filter_In in Hd as [_ Hd].
    apply andb_true_iff in Hd as [_ Hd]. unfold matchesCategory in Hd.
    apply str_eqb_neq in Hall. rewrite Hall in Hd. cbn [orb] in Hd.
    destruct (Document.category (Document.metadata doc)); [|discriminate].
    apply str_eqb_eq in Hd. congruence.
Qed.

End DocumentsFacts.

(** ** The counter the page shows *)

(** A send passes the gate exactly when the user is authenticated or the
    number of free messages the page shows as left is positive; that
    number is negative when the stored count is above the limit. *)
Theorem free_messages_and_gate (s : AuthState) :
  Auth.canSendMessage s =
    AuthState.isAuthenticated s ||
    match ChatPage.free_messages_left s with
    | Int n => Z.ltb 0 n
    | NaN => false
    end.
Proof.
  unfold Auth.canSendMessage, ChatPage.free_messages_left.
  destruct (AuthState.isAuthenticated s); [reflexivity|].
  destruct (AuthState.anonymousMessageCount s) as [z|]; [|reflexivity].
  cbn. unfold Auth.ANONYMOUS_MESSAGE_LIMIT.
  destruct (Z.ltb_spec z 3), (Z.ltb_spec 0 (3 - z)); first [reflexivity|lia].
Qed.

(** ** The further properties on the samples *)

(** The visitor signs in and out again: the count of 2 is gone. *)
Lemma login_logout_resets_quota_witness :
  let w' := Auth.logout (Auth.after (Auth.login Sample.accepting
                                       Sample.credentials Sample.visitor)) in
  Auth.state w' = AuthState.mk None false true (Int 0) false /\
  getItem Api.ACCESS_TOKEN_KEY (Auth.localStorage w') = None /\
  Auth.canSendMessage (Auth.state w') = true.
Proof.
  apply (login_logout_resets_quota Sample.accepting Sample.credentials
           Sample.visitor).
  reflexivity.
Defined.

(** Mounted, signed in, a message sent: the token is stored. *)
Lemma authenticated_has_token_witness :
  is_Some
    (getItem Api.ACCESS_TOKEN_KEY
       (Auth.localStorage
          (fold_left Auth.step
             [Auth.Mount; Auth.Login Sample.accepting Sample.credentials;
              Auth.IncrementMessageCount]
             (Auth.World Auth.initial_state ∅)))).
Proof.
  apply (authenticated_has_token ∅
           [Auth.Mount; Auth.Login Sample.accepting Sample.credentials;
            Auth.IncrementMessageCount]).
  reflexivity.
Defined.

(** The visitor sends a third message and reloads the page. *)
Lemma count_restored_on_reload_witness :
  Auth.state
    (Auth.on_mount
       (Auth.World Auth.initial_state
          (Auth.localStorage (Auth.incrementMessageCount Sample.visitor))))
  = AuthState.mk None false true (Int 3) false.
Proof.
  apply (count_restored_on_reload Sample.visitor 2);
    [rewrite MAX_SAFE_INTEGER_value; lia|reflexivity..].
Defined.

(** The sample answer, streamed in three chunks, gives the reply
    [Hello]. *)
Lemma reply_is_streamed_text_witness :
  let r := Api.streamMessage JSON.parse
             (Sample.ok_response Sample.answer_chunks Api.EndOfBody) in
  exists reply,
    last (Chat.messages
            (Chat.run_effects Chat.initial
               (Chat.sendMessage Sample.ToString Sample.ToNumber_positive
                  (js "Hi") JUndefined (js "09:00") (js "09:01") r).1))
      = Some reply /\
    Message.role reply = assistant /\
    Message.timestamp reply = js "09:01" /\
    Message.content reply = concat (omap Chat.delta_text (Api.events r)).
Proof.
  apply (reply_is_streamed_text Sample.ToString Sample.ToNumber_positive
           (js "Hi") JUndefined (js "09:00") (js "09:01")
           (Api.streamMessage JSON.parse
              (Sample.ok_response Sample.answer_chunks Api.EndOfBody))
           Chat.initial).
  - vm_compute.
    repeat constructor; intros H; first [discriminate H | eexists; reflexivity].
  - vm_compute. reflexivity.
  - vm_compute. discriminate.
Defined.


(** With the three free messages used, none of the five sends goes out. *)
Lemma sends_refused_at_limit_witness :
  let done :=
    Page.handle_sends JSON.parse Sample.ToString Sample.ToNumber_positive
      Sample.sends Sample.spent_page in
  done.2 = 0 /\
  Page.auth done.1 = Page.auth Sample.spent_page /\
  Page.chat done.1 = Page.chat Sample.spent_page /\
  Page.sessions done.1 = Page.sessions Sample.spent_page /\
  (Sample.sends <> [] -> Page.limitModalOpen done.1 = true).
Proof.
  apply (sends_refused_at_limit JSON.parse Sample.ToString
           Sample.ToNumber_positive Sample.sends Sample.spent_page).
  reflexivity.
Defined.

(** A question asked without a connection. *)
Lemma failed_send_keeps_quota_witness :
  let done :=
    Page.handleSendMessage JSON.parse Sample.ToString
      Sample.ToNumber_positive (js "What are the fees?") (js "09:02")
      (js "09:03") Api.Rejected Sample.page in
  done.2 = Page.Failed /\
  Page.auth done.1 = Page.auth Sample.page /\
  Chat.messages (Page.chat done.1) =
    Chat.messages (Page.chat Sample.page) ++
    [Message.mk user (js "What are the fees?") (js "09:02") None;
     Message.mk assistant
       (js "I apologize, but I encountered an error. Please try again.")
       (js "09:03") None].
Proof.
  apply (failed_send_keeps_quota JSON.parse Sample.ToString
           Sample.ToNumber_positive (js "What are the fees?") (js "09:02")
           (js "09:03") Api.Rejected Api.FetchFailed Sample.page);
    reflexivity.
Defined.

(** Signed in, four of the five sample sends complete. *)
Lemma authenticated_sends_unlimited_witness :
  let done :=
    Page.handle_sends JSON.parse Sample.ToString Sample.ToNumber_positive
      Sample.sends Sample.member_page in
  Page.auth done.1 = Page.auth Sample.member_page /\
  Page.limitModalOpen done.1 = Page.limitModalOpen Sample.member_page /\
  done.2 =
    length (List.filter
              (fun s : Page.send =>
                 match Api.finish (Api.streamMessage JSON.parse s.2) with
                 | Api.Returned => true
                 | Api.Threw _ => false
                 end) Sample.sends).
Proof.
  apply (authenticated_sends_unlimited JSON.parse Sample.ToString
           Sample.ToNumber_positive Sample.sends Sample.member_page);
    reflexivity.
Defined.

(** A draft with blanks around it, typed on a fresh page. *)
Lemma input_passes_gate_witness :
  (Page.handleSendMessage JSON.parse Sample.ToString
     Sample.ToNumber_positive (js "Hi") (js "09:00") (js "09:01")
     (Sample.ok_response [Sample.answer] Api.EndOfBody) Sample.page).2
    <> Page.Refused /\
  false = false /\ js "Hi" = trim (js "  Hi ") /\ js "Hi" <> [] /\
  @nil N = [].
Proof.
  apply (input_passes_gate JSON.parse Sample.ToString
           Sample.ToNumber_positive false (js "  Hi ") (js "Hi") []
           (js "09:00") (js "09:01")
           (Sample.ok_response [Sample.answer] Api.EndOfBody) Sample.page).
  reflexivity.
Defined.

(** Two of the sample documents are on fees. *)
Lemma badge_counts_shown_witness :
  Documents.categoryCounts Sample.inherited Sample.documents !! js "Fees"
    = Some (Documents.Count 2).
Proof.
  rewrite (badge_counts_shown Sample.toLowerCase Sample.inherited
             Sample.documents (js "Fees")).
  - reflexivity.
  - vm_compute. discriminate.
  - vm_compute. discriminate.
  - vm_compute. discriminate.
  - reflexivity.
Defined.

Example categories_of_the_samples :
  Documents.categories Sample.documents = [js "all"; js "Fees"].
Proof. reflexivity. Qed.

Example unknown_is_counted_but_has_no_button :
  Documents.categoryCounts Sample.inherited Sample.documents !! js "Unknown"
    = Some (Documents.Count 1) /\
  js "Unknown" ∉ Documents.categories Sample.documents.
Proof.
  split.
  - unfold Documents.categoryCounts. rewrite fold_count_lookup. reflexivity.
  - change (Documents.categories Sample.documents)
      with [js "all"; js "Fees"].
    rewrite !elem_of_cons, elem_of_nil.
    intros [H|[H|[]]]; vm_compute in H; discriminate H.
Qed.
